(** * generate_materials.py: material generator and manifest patcher

    A shallow embedding of [src/generate_materials.py] and the properties of
    its four functions: [create_material_json], [update_common_flowstate_json],
    [generate_materials] and [main].

    Conventions of the model.
    - Python text is a [string]; a character is a code point below 256
      (the Latin-1 range), which is what [ascii] holds.
    - The process state (files, directories, console) is an explicit [world]
      threaded through a state-and-exception monad [IO]; an unhandled Python
      exception is the outcome [Exc], which ends the process.
    - A file holds the characters stored in it. Text mode translates
      newlines between them and the program: what is read has every carriage
      return, with the line feed after it if there is one, turned into a line
      feed, and what is written has every line feed turned into [os.linesep];
      [shutil.copy2] moves the characters as they are. The UTF-8 codec lies
      below the model (a text file is the characters it decodes to), and so
      does file metadata.
    - A path names a file by its text, as pathlib prints it. Two texts that
      the system would resolve to one file (through a dot-dot segment, an
      absolute path into the working directory, a link, or letters of
      another case where the file system ignores it) are two files here. The
      property that lists the files a generation may change is therefore
      stated for names and paths without such segments.
    - A path that the system turns down for its form (a NUL character, an
      over-long component) makes the real operation raise; the model has no
      such failure. What is proved of a run over arbitrary names is about
      what the run leaves alone, or is about a run that returns.
    - What depends on the platform (the separators, pathlib) is a class
      [Platform]; [Posix.platform] is its instance for POSIX systems. *)

From Stdlib Require Import ZArith NArith Lia Ascii String List.
From stdpp Require Import base option list gmap strings pretty.

(** ** Python string primitives *)

Module PyStr.

Definition chr (c : ascii) : string := String c EmptyString.

(** The double quote, the line feed and the carriage return, which string
    literals of this file never contain. *)
Definition dq : string := chr "034".
Definition nl : string := chr "010".
Definition cr : string := chr "013".

Fixpoint str_take (n : nat) (s : string) : string :=
  match n, s with
  | S n', String c s' => String c (str_take n' s')
  | _, _ => EmptyString
  end.

Fixpoint str_drop (n : nat) (s : string) : string :=
  match n, s with
  | S n', String _ s' => str_drop n' s'
  | _, _ => s
  end.

(** How a slice bound is read against a text of length [n]: a negative
    bound counts from the end, and both ends are clamped. *)
Definition norm_index (n i : Z) : Z :=
  if (i <? 0)%Z then Z.max 0 (n + i) else Z.min i n.

(** [s[:k]] and [s[k:]]. *)
Definition slice_to (s : string) (k : Z) : string :=
  str_take (Z.to_nat (norm_index (Z.of_nat (String.length s)) k)) s.
Definition slice_from (s : string) (k : Z) : string :=
  str_drop (Z.to_nat (norm_index (Z.of_nat (String.length s)) k)) s.

(** Lowest index at which [sub] starts in [s]. *)
Fixpoint find_nat (sub s : string) : option nat :=
  if String.prefix sub s then Some 0
  else match s with
       | EmptyString => None
       | String _ s' => S <$> find_nat sub s'
       end.

(** Highest index at which [sub] starts in [s]. *)
Fixpoint rfind_nat (sub s : string) : option nat :=
  match s with
  | EmptyString => if String.prefix sub EmptyString then Some 0 else None
  | String _ s' =>
      match rfind_nat sub s' with
      | Some i => Some (S i)
      | None => if String.prefix sub s then Some 0 else None
      end
  end.

(** [s.find(sub)]: the index, or -1. *)
Definition str_find (s sub : string) : Z :=
  match find_nat sub s with
  | Some i => Z.of_nat i
  | None => (-1)%Z
  end.

(** [sub in s]. *)
Definition str_in (sub s : string) : bool :=
  match find_nat sub s with
  | Some _ => true
  | None => false
  end.

(** [s.rfind(sub, start, stop)]: the highest index of an occurrence lying
    inside [s[start:stop]], or -1. *)
Definition str_rfind (s sub : string) (start stop : Z) : Z :=
  let n := Z.of_nat (String.length s) in
  let a := norm_index n start in
  let b := norm_index n stop in
  match rfind_nat sub (str_drop (Z.to_nat a) (str_take (Z.to_nat b) s)) with
  | Some i => (a + Z.of_nat i)%Z
  | None => (-1)%Z
  end.

(** [s.split(c)] for a one-character separator. *)
Fixpoint split_on (c : ascii) (s : string) : list string :=
  match s with
  | EmptyString => [EmptyString]
  | String a s' =>
      if Ascii.eqb a c then EmptyString :: split_on c s'
      else match split_on c s' with
           | h :: t => String a h :: t
           | [] => [chr a]
           end
  end.

(** [sep.join(l)]. *)
Definition join (sep : string) (l : list string) : string :=
  String.concat sep l.

(** [s.replace(c, new)] for a one-character pattern. *)
Fixpoint replace_char (c : ascii) (new : string) (s : string) : string :=
  match s with
  | EmptyString => EmptyString
  | String a s' =>
      if Ascii.eqb a c then new +:+ replace_char c new s'
      else String a (replace_char c new s')
  end.

(** [s * n]. *)
Fixpoint repeat_str (s : string) (n : nat) : string :=
  match n with
  | O => EmptyString
  | S n' => s +:+ repeat_str s n'
  end.

Definition between (lo hi n : N) : bool := (lo <=? n)%N && (n <=? hi)%N.

(** [c.isspace()] on the Latin-1 range. *)
Definition isspace (c : ascii) : bool :=
  let n := N_of_ascii c in
  between 9 13 n || between 28 32 n || (n =? 133)%N || (n =? 160)%N.

Fixpoint lstrip (s : string) : string :=
  match s with
  | String c s' => if isspace c then lstrip s' else s
  | EmptyString => EmptyString
  end.

Fixpoint rstrip (s : string) : string :=
  match s with
  | EmptyString => EmptyString
  | String c s' =>
      match rstrip s' with
      | EmptyString => if isspace c then EmptyString else chr c
      | r => String c r
      end
  end.

(** [s.strip()]. *)
Definition strip (s : string) : string := lstrip (rstrip s).

(** [c.lower()] on the Latin-1 range: the letters A-Z and the accented
    capitals 0xC0-0xDE (the multiplication sign 0xD7 apart) move up by 32. *)
Definition lower_char (c : ascii) : ascii :=
  let n := N_of_ascii c in
  if between 65 90 n || (between 192 222 n && negb (n =? 215)%N)
  then ascii_of_N (n + 32) else c.

(** [s.lower()]. *)
Fixpoint lower (s : string) : string :=
  match s with
  | EmptyString => EmptyString
  | String c s' => String (lower_char c) (lower s')
  end.

(** Truth value of a string: non-empty. *)
Definition truthy (s : string) : bool :=
  match s with
  | EmptyString => false
  | String _ _ => true
  end.

(** [str(n)] for a natural number. *)
Definition str_of_nat (n : nat) : string := pretty n.

End PyStr.
Import PyStr.

(** ** JSON values and [json.dump(..., indent=4)] *)

Module Json.

(** The values the descriptor is made of. A dict is an association list in
    insertion order, as Python keeps it. *)
#[warnings="-register-all"]
Inductive value : Type :=
| JInt (n : Z)
| JStr (s : string)
| JList (l : list value)
| JDict (kv : list (string * value)).

(** [d[k]] on an association list. *)
Fixpoint assoc (k : string) (kv : list (string * value)) : option value :=
  match kv with
  | [] => None
  | (k', v) :: rest => if String.eqb k k' then Some v else assoc k rest
  end.

Definition get (k : string) (v : value) : option value :=
  match v with
  | JDict kv => assoc k kv
  | _ => None
  end.

(** The entries of a dict, in order. *)
Definition items (v : value) : list (string * value) :=
  match v with
  | JDict kv => kv
  | _ => []
  end.

Definition bs : string := chr "092".

Definition hex_digit (n : N) : string :=
  chr (default "0"%char (list_ascii_of_string "0123456789abcdef" !! N.to_nat n)).

(** One character inside a JSON string, with [ensure_ascii] on. *)
Definition escape_char (c : ascii) : string :=
  let n := N_of_ascii c in
  if (n =? 34)%N then bs +:+ dq
  else if (n =? 92)%N then bs +:+ bs
  else if (n =? 10)%N then bs +:+ "n"
  else if (n =? 13)%N then bs +:+ "r"
  else if (n =? 9)%N then bs +:+ "t"
  else if (n =? 8)%N then bs +:+ "b"
  else if (n =? 12)%N then bs +:+ "f"
  else if between 32 126 n then chr c
  else bs +:+ "u00" +:+ hex_digit (n / 16) +:+ hex_digit (n mod 16).

Fixpoint escape (s : string) : string :=
  match s with
  | EmptyString => EmptyString
  | String c s' => escape_char c +:+ escape s'
  end.

Definition encode_str (s : string) : string := dq +:+ escape s +:+ dq.

Definition pad (indent level : nat) : string := repeat_str " " (indent * level).

(** The text of a value at a nesting level. *)
Fixpoint dumps_at (indent level : nat) (v : value) : string :=
  match v with
  | JInt n => pretty n
  | JStr s => encode_str s
  | JList [] => "[]"
  | JList l =>
      "[" +:+ nl +:+ pad indent (S level)
      +:+ join ("," +:+ nl +:+ pad indent (S level))
               (List.map (dumps_at indent (S level)) l)
      +:+ nl +:+ pad indent level +:+ "]"
  | JDict [] => "{}"
  | JDict kv =>
      "{" +:+ nl +:+ pad indent (S level)
      +:+ join ("," +:+ nl +:+ pad indent (S level))
               (List.map (fun e => encode_str (fst e) +:+ ": "
                                   +:+ dumps_at indent (S level) (snd e)) kv)
      +:+ nl +:+ pad indent level +:+ "}"
  end.

Definition dumps (indent : nat) (v : value) : string := dumps_at indent 0 v.

End Json.
Import Json.

(** ** The process state and the [IO] monad *)

(** What the environment can do to an operation on a path: refuse to open it
    for reading, refuse to create or open it for writing, or run out of space
    after [room] characters of a write. *)
Inductive fault : Type :=
| ReadDenied
| WriteDenied
| NoSpace (room : nat).

Inductive exn : Type :=
| FileNotFoundError (p : string)
| PermissionError (p : string)
| IsADirectoryError (p : string)
| NotADirectoryError (p : string)
| FileExistsError (p : string)
| NoSpaceError (p : string)
| EOFError.

(** [str(e)], as CPython prints it on Linux. *)
Definition exn_str (e : exn) : string :=
  match e with
  | FileNotFoundError p => "[Errno 2] No such file or directory: '" +:+ p +:+ "'"
  | PermissionError p => "[Errno 13] Permission denied: '" +:+ p +:+ "'"
  | IsADirectoryError p => "[Errno 21] Is a directory: '" +:+ p +:+ "'"
  | NotADirectoryError p => "[Errno 20] Not a directory: '" +:+ p +:+ "'"
  | FileExistsError p => "[Errno 17] File exists: '" +:+ p +:+ "'"
  | NoSpaceError p => "[Errno 28] No space left on device"
  | EOFError => "EOF when reading a line"
  end.

Definition is_FileNotFoundError (e : exn) : bool :=
  match e with
  | FileNotFoundError _ => true
  | _ => false
  end.

(** Files hold the characters stored in them; [stdin] is the lines still to
    be read; [stdout] is what has been printed, oldest first. *)
Record world : Type := World {
  files : gmap string string;
  dirs : gset string;
  faults : gmap string fault;
  stdin : list string;
  stdout : list string
}.

Definition set_files (f : gmap string string) (w : world) : world :=
  World f (dirs w) (faults w) (stdin w) (stdout w).
Definition set_dirs (d : gset string) (w : world) : world :=
  World (files w) d (faults w) (stdin w) (stdout w).
Definition set_stdin (i : list string) (w : world) : world :=
  World (files w) (dirs w) (faults w) i (stdout w).
Definition set_stdout (o : list string) (w : world) : world :=
  World (files w) (dirs w) (faults w) (stdin w) o.

(** A call returns a value or raises; either way the world it leaves is
    kept. *)
Inductive outcome (A : Type) : Type :=
| Ret (a : A)
| Exc (e : exn).
Arguments Ret {A} a.
Arguments Exc {A} e.

Definition IO (A : Type) : Type := world -> outcome A * world.

Definition io_ret {A} (a : A) : IO A := fun w => (Ret a, w).

Definition io_bind {A B} (m : IO A) (k : A -> IO B) : IO B :=
  fun w =>
    match m w with
    | (Ret a, w') => k a w'
    | (Exc e, w') => (Exc e, w')
    end.

Definition raise {A} (e : exn) : IO A := fun w => (Exc e, w).

(** [try: m  except <handled>: h]. The handler says which exceptions it
    takes; the others propagate. *)
Definition try_except {A} (m : IO A) (h : exn -> option (IO A)) : IO A :=
  fun w =>
    match m w with
    | (Ret a, w') => (Ret a, w')
    | (Exc e, w') =>
        match h e with
        | Some k => k w'
        | None => (Exc e, w')
        end
    end.

Declare Scope io_scope.
Delimit Scope io_scope with io.
Bind Scope io_scope with IO.
Notation "x <- m ;; k" := (io_bind m (fun x => k))
  (at level 100, m at next level, k at level 200, right associativity) : io_scope.
Notation "m ;; k" := (io_bind m (fun _ => k))
  (at level 100, k at level 200, right associativity) : io_scope.
Local Open Scope io_scope.

(** *** Console *)

(** [print(s)]. *)
Definition print (s : string) : IO unit :=
  fun w => (Ret tt, set_stdout (stdout w ++ [s +:+ nl]) w).

(** [input()]: the next line, or EOFError at the end of the input. *)
Definition input : IO string :=
  fun w =>
    match stdin w with
    | [] => (Exc EOFError, w)
    | l :: rest => (Ret l, set_stdin rest w)
    end.

(** [input(prompt)]: the prompt goes out without a line feed. *)
Definition input_prompt (prompt : string) : IO string :=
  fun w => input (set_stdout (stdout w ++ [prompt]) w).

(** *** Files *)

(** [os.path.exists(p)]. *)
Definition os_path_exists (p : string) : IO bool :=
  fun w => (Ret (bool_decide (is_Some (files w !! p) ∨ p ∈ dirs w)), w).

(** [open(p, 'rb').read()]: the characters of the file, as they are. *)
Definition read_bytes (p : string) : IO string :=
  fun w =>
    match files w !! p with
    | Some data =>
        match faults w !! p with
        | Some ReadDenied => (Exc (PermissionError p), w)
        | _ => (Ret data, w)
        end
    | None =>
        if bool_decide (p ∈ dirs w) then (Exc (IsADirectoryError p), w)
        else (Exc (FileNotFoundError p), w)
    end.

(** Universal newlines, which text mode applies to what it reads: a
    carriage return comes out as a line feed, and a line feed that follows a
    carriage return is dropped. [after_cr] says that the character before
    was a carriage return. *)
Fixpoint read_newlines (after_cr : bool) (s : string) : string :=
  match s with
  | EmptyString => EmptyString
  | String c s' =>
      if Ascii.eqb c "013" then String "010" (read_newlines true s')
      else if Ascii.eqb c "010"
           then if after_cr then read_newlines false s'
                else String "010" (read_newlines false s')
           else String c (read_newlines false s')
  end.

Definition universal_newlines (s : string) : string := read_newlines false s.

(** [with open(p, 'r', encoding='utf-8') as f: f.read()]. *)
Definition read_file (p : string) : IO string :=
  data <- read_bytes p ;; io_ret (universal_newlines data).

(** [open(p, 'wb').write(data)]: the file is created or truncated, then
    filled. Every call site opens a file of the working directory or of a
    directory that has just been ensured, so the parent directory is not
    looked up. *)
Definition write_bytes (p data : string) : IO unit :=
  fun w =>
    if bool_decide (files w !! p = None ∧ p ∈ dirs w)
    then (Exc (IsADirectoryError p), w)
    else match faults w !! p with
         | Some WriteDenied => (Exc (PermissionError p), w)
         | Some (NoSpace room) =>
             if bool_decide (String.length data ≤ room)
             then (Ret tt, set_files (<[p := data]> (files w)) w)
             else (Exc (NoSpaceError p),
                   set_files (<[p := str_take room data]> (files w)) w)
         | _ => (Ret tt, set_files (<[p := data]> (files w)) w)
         end.

(** [os.mkdir(p)], [parent] being the directory it is created in, when that
    is not the working directory or the root. *)
Definition os_mkdir (p : string) (parent : option string) : IO unit :=
  fun w =>
    let parent_file :=
      match parent with
      | Some q => bool_decide (is_Some (files w !! q))
      | None => false
      end in
    let parent_missing :=
      match parent with
      | Some q => bool_decide (q ∉ dirs w)
      | None => false
      end in
    if parent_file then (Exc (NotADirectoryError p), w)
    else if parent_missing then (Exc (FileNotFoundError p), w)
    else if bool_decide (is_Some (files w !! p) ∨ p ∈ dirs w)
    then (Exc (FileExistsError p), w)
    else match faults w !! p with
         | Some WriteDenied => (Exc (PermissionError p), w)
         | Some (NoSpace _) => (Exc (NoSpaceError p), w)
         | _ => (Ret tt, set_dirs ({[p]} ∪ dirs w) w)
         end.

Definition is_dir (p : string) : IO bool :=
  fun w => (Ret (bool_decide (p ∈ dirs w)), w).

(** What pathlib does with an OSError of [os.mkdir] under [exist_ok]:
    swallow it when the path is a directory. *)
Definition unless_is_dir (p : string) (e : exn) : IO unit :=
  d <- is_dir p ;; if d then io_ret tt else raise e.

(** [Path.mkdir(parents=False, exist_ok=True)]. *)
Definition mkdir_exist_ok (p : string) (parent : option string) : IO unit :=
  try_except (os_mkdir p parent)
    (fun e => if is_FileNotFoundError e then None else Some (unless_is_dir p e)).

(** [Path.mkdir(parents=True, exist_ok=True)] on a path given by its
    lineage: the path itself, then its parent, and so on up to, and without,
    the working directory or the root. *)
Fixpoint mkdir_parents (lineage : list string) : IO unit :=
  match lineage with
  | [] => io_ret tt
  | p :: ancestors =>
      try_except (os_mkdir p (head ancestors))
        (fun e =>
           if is_FileNotFoundError e
           then Some (mkdir_parents ancestors ;; mkdir_exist_ok p (head ancestors))
           else Some (unless_is_dir p e))
  end.

(** ** The platform: [os.sep] and pathlib *)

(** What the program takes from the platform it runs on: the path separator,
    the line separator that text mode writes, and pathlib's paths with their
    construction from text, the [/] operator, [str] and the lineage that
    [mkdir] walks. *)
Class Platform : Type := {
  os_sep : ascii;
  os_linesep : string;
  fspath : Type;
  Path : string -> fspath;
  path_div : fspath -> string -> fspath;
  path_str : fspath -> string;
  path_lineage : fspath -> list string
}.

(** [PurePosixPath]: an anchor (empty, one slash, or two) and the segments
    after it; empty and single-dot segments are dropped when text is read. *)
Module Posix.

Record posix_path : Type := PosixPath {
  anchor : string;
  parts : list string
}.

Definition is_part (s : string) : bool :=
  negb (String.eqb s EmptyString) && negb (String.eqb s ".").

Definition parse (s : string) : posix_path :=
  {| anchor :=
       if String.prefix "//" s && negb (String.prefix "///" s) then "//"
       else if String.prefix "/" s then "/"
       else EmptyString;
     parts := List.filter is_part (split_on "/" s) |}.

(** [p / s]: an anchored right operand replaces the left one. *)
Definition div (p : posix_path) (s : string) : posix_path :=
  let q := parse s in
  if truthy (anchor q) then q
  else {| anchor := anchor p; parts := parts p ++ parts q |}.

Definition render (a : string) (l : list string) : string :=
  match a, l with
  | EmptyString, [] => "."
  | _, _ => a +:+ join "/" l
  end.

Definition str (p : posix_path) : string := render (anchor p) (parts p).

(** The path, its parent, its grandparent, ... as text. *)
Fixpoint lineage_of (a : string) (rev_parts : list string) : list string :=
  match rev_parts with
  | [] => []
  | _ :: outer => render a (rev rev_parts) :: lineage_of a outer
  end.

Definition lineage (p : posix_path) : list string :=
  lineage_of (anchor p) (rev (parts p)).

Definition platform : Platform := {|
  os_sep := "/";
  os_linesep := nl;
  fspath := posix_path;
  Path := parse;
  path_div := div;
  path_str := str;
  path_lineage := lineage
|}.

End Posix.

(** ** The program *)

Section Program.

Context `{Platform}.

(** [os.path.join(dst, name)] for a relative [name]. *)
Definition os_path_join (dst name : string) : string :=
  match String.rev dst with
  | String c _ =>
      if Ascii.eqb c os_sep then dst +:+ name else dst +:+ chr os_sep +:+ name
  | EmptyString => name
  end.

(** What text mode writes for a text: every line feed becomes
    [os.linesep]. *)
Definition newline_out (data : string) : string :=
  replace_char "010" os_linesep data.

(** [with open(p, 'w', encoding='utf-8') as f: f.write(data)]. *)
Definition write_file (p data : string) : IO unit :=
  write_bytes p (newline_out data).

(** [shutil.copy2(src, dst)] for a [src] without a directory part, which is
    how the program calls it: a [dst] that is a directory receives the file
    under the name of [src]; the source is opened first, then the target,
    both as they are. *)
Definition copy2 (src dst : string) : IO unit :=
  d <- is_dir dst ;;
  let target := if d then os_path_join dst src else dst in
  data <- read_bytes src ;;
  write_bytes target data.

(** *** create_material_json *)

Definition create_material_json (material_name : string) : Json.value :=
  JDict [
    ("name", JStr material_name);
    ("width", JInt 2048);
    ("height", JInt 2048);
    ("depth", JInt 0);
    ("glueFlags", JStr "0x56000420");
    ("glueFlags2", JStr "0x0");
    ("blendStates", JList [
       JStr "0xF0000000";
       JStr "0xF0000000";
       JStr "0xF0000000";
       JStr "0xF0000000";
       JStr "0xF0000000";
       JStr "0xF0000000";
       JStr "0xF0000000";
       JStr "0xF0000000"
     ]);
    ("blendStateMask", JStr "0x4");
    ("depthStencilFlags", JStr "0x17");
    ("rasterizerFlags", JStr "0x6");
    ("uberBufferFlags", JStr "0x0");
    ("features", JStr "0x1F5A92BD");
    ("samplers", JStr "0x1D0300");
    ("surfaceProp", JStr "default");
    ("surfaceProp2", JStr EmptyString);
    ("shaderType", JStr "sknp");
    ("shaderSet", JStr "0x97E4F7D956E5E6CE");
    ("$textures", JDict [
       ("0", JStr ("texture/" +:+ material_name +:+ "_0.rpak"));
       ("1", JStr ("texture/" +:+ material_name +:+ "_1.rpak"));
       ("2", JStr ("texture/" +:+ material_name +:+ "_2.rpak"));
       ("3", JStr ("texture/" +:+ material_name +:+ "_3.rpak"));
       ("4", JStr ("texture/" +:+ material_name +:+ "_4.rpak"));
       ("5", JStr ("texture/" +:+ material_name +:+ "_5.rpak"));
       ("6", JStr ("texture/" +:+ material_name +:+ "_6.rpak"))
     ]);
    ("$depthShadowMaterial", JStr "0x2B93C99C67CC8B51");
    ("$depthPrepassMaterial", JStr "0x1EBD063EA03180C7");
    ("$depthVSMMaterial", JStr "0xF95A7FA9E8DE1A0E");
    ("$depthShadowTightMaterial", JStr "0x227C27B608B3646B");
    ("$colpassMaterial", JStr "0x0");
    ("$textureAnimation", JStr "0x0")
  ].

(** *** update_common_flowstate_json *)

Definition json_file : string := "common_flowstate.json".

(** The wrapped path that is looked for in the manifest text. *)
Definition quoted (material_path : string) : string :=
  dq +:+ material_path +:+ dq.

(** The first loop: every path goes to [existing_paths] (and is announced)
    or to [new_material_paths]. *)
Fixpoint classify (content : string) (material_paths : list string)
    (new_material_paths existing_paths : list string)
    : IO (list string * list string) :=
  match material_paths with
  | [] => io_ret (new_material_paths, existing_paths)
  | material_path :: rest =>
      if str_in (quoted material_path) content
      then
        print ("  Skipping (already exists): " +:+ material_path) ;;
        classify content rest new_material_paths (existing_paths ++ [material_path])
      else
        classify content rest (new_material_paths ++ [material_path]) existing_paths
  end.

Definition first_matl_pattern : string :=
  dq +:+ "_type" +:+ dq +:+ ": " +:+ dq +:+ "matl" +:+ dq.

(** The text added for one path. *)
Definition entry_block (material_path : string) : string :=
  "    {" +:+ nl
  +:+ "      " +:+ dq +:+ "_type" +:+ dq +:+ ": " +:+ dq +:+ "matl" +:+ dq +:+ "," +:+ nl
  +:+ "      " +:+ dq +:+ "_path" +:+ dq +:+ ": " +:+ dq +:+ material_path +:+ dq +:+ nl
  +:+ "    }," +:+ nl.

(** The second loop: [new_entries_text += block]. *)
Fixpoint build_entries (new_material_paths : list string)
    (new_entries_text : string) : string :=
  match new_material_paths with
  | [] => new_entries_text
  | material_path :: rest =>
      build_entries rest (new_entries_text +:+ entry_block material_path)
  end.

Definition update_common_flowstate_json (material_paths : list string) : IO unit :=
  r <- try_except (content <- read_file json_file ;; io_ret (Some content))
         (fun e =>
            if is_FileNotFoundError e
            then Some (print ("Error: " +:+ json_file +:+ " not found") ;;
                       io_ret None)
            else None) ;;
  match r with
  | None => io_ret tt
  | Some content =>
      lists <- classify content material_paths [] [] ;;
      let '(new_material_paths, existing_paths) := lists in
      match new_material_paths with
      | [] =>
          print "All material paths already exist in common_flowstate.json. No changes made."
      | _ :: _ =>
          let first_matl_index := str_find content first_matl_pattern in
          if (first_matl_index =? -1)%Z
          then print "Warning: No existing material entries found in common_flowstate.json"
          else
            let entry_start := str_rfind content "{" 0 first_matl_index in
            if (entry_start =? -1)%Z
            then print "Error: Could not find the start of the first material entry"
            else
              let new_entries_text := build_entries new_material_paths EmptyString in
              let new_content :=
                slice_to content entry_start +:+ new_entries_text
                +:+ slice_from content entry_start in
              try_except
                (write_file json_file new_content ;;
                 print ("Added " +:+ str_of_nat (length new_material_paths)
                        +:+ " new material entries to common_flowstate.json") ;;
                 match existing_paths with
                 | [] => io_ret tt
                 | _ :: _ =>
                     print ("Skipped " +:+ str_of_nat (length existing_paths)
                            +:+ " existing entries")
                 end)
                (fun e =>
                   Some (print ("Error writing to " +:+ json_file +:+ ": "
                                +:+ exn_str e)))
      end
  end.

(** *** generate_materials *)

Definition uber_template : string := "testuber.uber".

Definition assets_dir : fspath := Path "assets".

(** [material_name.split('/')[-1]]. *)
Definition base_name (material_name : string) : string :=
  List.last (split_on "/" material_name) EmptyString.

(** The logical manifest path of a material. *)
Definition material_path (material_name : string) : string :=
  "material/" +:+ material_name +:+ "_sknp.rpak".

Definition parent_path (material_name : string) : string :=
  if str_in "/" material_name
  then join "/" (List.removelast (split_on "/" material_name))
  else EmptyString.

Definition material_dir (material_name : string) : fspath :=
  if truthy (parent_path material_name)
  then path_div (path_div assets_dir "material")
                (replace_char "/" (chr os_sep) (parent_path material_name))
  else path_div assets_dir "material".

Definition json_file_path (material_name : string) : fspath :=
  path_div (material_dir material_name) (base_name material_name +:+ "_sknp.json").

Definition uber_file_path (material_name : string) : fspath :=
  path_div (material_dir material_name) (base_name material_name +:+ "_sknp.uber").

(** One turn of the loop over the names; [material_paths] is the list the
    loop appends to. The variable [material_file] of the source is never
    read and is left out. *)
Definition process_material (material_name : string)
    (material_paths : list string) : IO (list string) :=
  print ("Processing material: " +:+ material_name) ;;
  let material_paths := material_paths ++ [material_path material_name] in
  mkdir_parents (path_lineage (material_dir material_name)) ;;
  let json_content := create_material_json material_name in
  write_file (path_str (json_file_path material_name)) (Json.dumps 4 json_content) ;;
  copy2 uber_template (path_str (uber_file_path material_name)) ;;
  print ("  Created: " +:+ path_str (json_file_path material_name)) ;;
  print ("  Created: " +:+ path_str (uber_file_path material_name)) ;;
  io_ret material_paths.

Fixpoint process_materials (material_names : list string)
    (material_paths : list string) : IO (list string) :=
  match material_names with
  | [] => io_ret material_paths
  | material_name :: rest =>
      material_paths <- process_material material_name material_paths ;;
      process_materials rest material_paths
  end.

Definition generate_materials (material_names : list string) : IO unit :=
  match material_names with
  | [] => print "No material names provided."
  | _ :: _ =>
      e <- os_path_exists uber_template ;;
      if negb e
      then print ("Error: " +:+ uber_template +:+ " not found in the current directory.")
      else
        material_paths <- process_materials material_names [] ;;
        print (nl +:+ "Updating common_flowstate.json...") ;;
        update_common_flowstate_json material_paths ;;
        print (nl +:+ "Completed processing "
               +:+ str_of_nat (length material_names) +:+ " materials.")
  end.

(** *** main *)

(** The reading loop, on the lines left on the input: a line that is empty
    once stripped ends it, and the end of the input makes [input()] raise. *)
Fixpoint read_names (lines : list string) (material_names : list string)
    : outcome (list string) * list string :=
  match lines with
  | [] => (Exc EOFError, [])
  | line :: rest =>
      let material_name := strip line in
      if truthy material_name
      then read_names rest (material_names ++ [material_name])
      else (Ret material_names, rest)
  end.

Definition collect_names : IO (list string) :=
  fun w =>
    let '(r, rest) := read_names (stdin w) [] in
    (r, set_stdin rest w).

(** [for i, name in enumerate(material_names, i): print(...)]. *)
Fixpoint print_numbered (i : nat) (material_names : list string) : IO unit :=
  match material_names with
  | [] => io_ret tt
  | name :: rest =>
      print ("  " +:+ str_of_nat i +:+ ". " +:+ name) ;;
      print_numbered (S i) rest
  end.

(** [confirm in ('y', 'yes')]. *)
Definition affirmative (confirm : string) : bool :=
  String.eqb confirm "y" || String.eqb confirm "yes".

Definition main : IO unit :=
  print "Material Generator for Repak" ;;
  print (repeat_str "=" 40) ;;
  print "Enter material names (one per line, empty line to finish):" ;;
  material_names <- collect_names ;;
  match material_names with
  | [] => print "No material names provided. Exiting."
  | _ :: _ =>
      print (nl +:+ "Material names to process:") ;;
      print_numbered 1 material_names ;;
      answer <- input_prompt (nl +:+ "Proceed with generation? (y/N): ") ;;
      let confirm := lower (strip answer) in
      if affirmative confirm
      then generate_materials material_names
      else print "Operation cancelled."
  end.

End Program.

(** ** Notions the properties are stated with *)

(** [sub] stands in [s] at index [i]. *)
Definition occurs_at (sub s : string) (i : nat) : Prop :=
  ∃ pre post, s = pre +:+ sub +:+ post ∧ String.length pre = i.

(** [sub] is a substring of [s]. *)
Definition occurs (sub s : string) : Prop :=
  ∃ pre post, s = pre +:+ sub +:+ post.

(** The lowest index at which [sub] stands in [s] is [i]. *)
Definition first_at (sub s : string) (i : nat) : Prop :=
  occurs_at sub s i ∧ ∀ j, j < i → ¬ occurs_at sub s j.

(** The number of indices at which [sub] stands in [s]. *)
Fixpoint count_occurrences (sub s : string) : nat :=
  (if String.prefix sub s then 1 else 0) +
  match s with
  | EmptyString => 0
  | String _ s' => count_occurrences sub s'
  end.

(** Equality of two texts up to the case of their letters. *)
Definition eq_ignoring_case (a b : string) : Prop := lower a = lower b.

(** The blocks of a list of paths, one after the other. *)
Definition entries_text (paths : list string) : string :=
  foldr (fun p acc => entry_block p +:+ acc) EmptyString paths.

(** The line printed for a path that the manifest already holds. *)
Definition skip_line (p : string) : string :=
  "  Skipping (already exists): " +:+ p +:+ nl.

(** The test of the first loop, as a predicate on paths. *)
Definition present_in (content p : string) : bool :=
  str_in (quoted p) content.

(** The world with more text on its console. *)
Definition printed (out : list string) (w : world) : world :=
  set_stdout (stdout w ++ out) w.

(** The seven texture references as the specification words them, built
    from the bare name, and as the descriptor holds them. *)
Definition texture_keys : list string := ["0"; "1"; "2"; "3"; "4"; "5"; "6"].

Definition bare_texture_refs (name : string) : list Json.value :=
  map (fun i => JStr (name +:+ "_" +:+ i +:+ ".rpak")) texture_keys.

Definition texture_refs (name : string) : list Json.value :=
  map (fun i => JStr ("texture/" +:+ name +:+ "_" +:+ i +:+ ".rpak")) texture_keys.

(** Neither a file nor a directory. *)
Definition absent (p : string) (w : world) : Prop :=
  files w !! p = None ∧ p ∉ dirs w.

(** A manifest with one material entry, and a world that holds it beside the
    template, with nothing on the console. *)
Definition sample_head : string :=
  "{" +:+ nl
  +:+ "  " +:+ dq +:+ "files" +:+ dq +:+ ": [" +:+ nl
  +:+ "    ".

Definition sample_tail : string :=
  "{" +:+ nl
  +:+ "      " +:+ dq +:+ "_type" +:+ dq +:+ ": " +:+ dq +:+ "matl" +:+ dq +:+ "," +:+ nl
  +:+ "      " +:+ dq +:+ "_path" +:+ dq +:+ ": " +:+ dq +:+ "material/old_sknp.rpak" +:+ dq +:+ nl
  +:+ "    }" +:+ nl
  +:+ "  ]" +:+ nl
  +:+ "}" +:+ nl.

Definition sample_manifest : string := sample_head +:+ sample_tail.

Definition sample_world (lines : list string) : world :=
  {| files := {[ "testuber.uber" := "UBER"; "common_flowstate.json" := sample_manifest ]};
     dirs := ∅;
     faults := ∅;
     stdin := lines;
     stdout := [] |}.

(** The same world with the manifest protected against writing, with a
    manifest that holds no material entry, and with no file at all. *)
Definition protected_world (lines : list string) : world :=
  {| files := files (sample_world lines);
     dirs := ∅;
     faults := {[ "common_flowstate.json" := WriteDenied ]};
     stdin := lines;
     stdout := [] |}.

Definition markerless_world : world :=
  {| files := {[ "testuber.uber" := "UBER"; "common_flowstate.json" := "{ }" ]};
     dirs := ∅;
     faults := ∅;
     stdin := [];
     stdout := [] |}.

Definition empty_world : world :=
  {| files := ∅; dirs := ∅; faults := ∅; stdin := []; stdout := [] |}.

(** The paths of the names foo/bar and baz, and a path given twice. *)
Definition two_paths : list string :=
  ["material/foo/bar_sknp.rpak"; "material/baz_sknp.rpak"].

Definition repeated_paths : list string :=
  ["material/a_sknp.rpak"; "material/a_sknp.rpak"].

(** [msg in out]. *)
Definition was_printed (msg : string) (out : list string) : bool :=
  existsb (String.eqb msg) out.

(** What [main] has printed and read when the answer to its question is in:
    the banner, the numbered names and the question are out, and the lines
    after the answer are left on the input. *)
Fixpoint numbered_lines (i : nat) (names : list string) : list string :=
  match names with
  | [] => []
  | name :: rest =>
      ("  " +:+ str_of_nat i +:+ ". " +:+ name +:+ nl) :: numbered_lines (S i) rest
  end.

Definition banner : list string :=
  ["Material Generator for Repak" +:+ nl;
   repeat_str "=" 40 +:+ nl;
   "Enter material names (one per line, empty line to finish):" +:+ nl].

Definition asked (names rest : list string) (w : world) : world :=
  set_stdin rest
    (printed (banner ++ [nl +:+ "Material names to process:" +:+ nl]
              ++ numbered_lines 1 names
              ++ [nl +:+ "Proceed with generation? (y/N): "]) w).



(** ** Notions for the further properties *)

(** A line that is empty once stripped: it ends the reading of the names. *)
Definition blank (line : string) : Prop := strip line = EmptyString.

(** What a successful patch prints after the skipped paths. *)
Definition report_lines (new existing : list string) : list string :=
  ("Added " +:+ str_of_nat (length new)
   +:+ " new material entries to common_flowstate.json" +:+ nl)
  :: match existing with
     | [] => []
     | _ :: _ =>
         ["Skipped " +:+ str_of_nat (length existing) +:+ " existing entries" +:+ nl]
     end.

(** The manifest text after a patch at index [j]. *)
Definition patched (content : string) (j : Z) (new : list string) : string :=
  slice_to content j +:+ entries_text new +:+ slice_from content j.

(** The first and the last character of a text are not white space. *)
Definition trimmed (s : string) : Prop := lstrip s = s ∧ rstrip s = s.

(** Two worlds that differ at most by the content of the manifest and by
    text added to the console. *)
Definition touches_only_manifest (w w' : world) : Prop :=
  dirs w' = dirs w ∧ faults w' = faults w ∧ stdin w' = stdin w
  ∧ (∀ k, k ≠ json_file → files w' !! k = files w !! k)
  ∧ ∃ out, stdout w' = stdout w ++ out.

(** The line printed when every path is already in the manifest. *)
Definition no_changes_line : string :=
  "All material paths already exist in common_flowstate.json. No changes made." +:+ nl.

(** From [w] to [w'] nothing is deleted and nothing outside [keys] is
    written: the faults and the input are the same, every directory and every
    file of [w] is still there, and the files outside [keys] have the content
    they had. *)
Definition grows_on (keys : list string) (w w' : world) : Prop :=
  faults w' = faults w ∧ stdin w' = stdin w ∧ dirs w ⊆ dirs w'
  ∧ (∀ k, k ∉ keys → files w' !! k = files w !! k)
  ∧ (∀ k, is_Some (files w !! k) → is_Some (files w' !! k)).

(** A computation that, from any world, only grows it on [keys]. *)
Definition io_grows {A} (keys : list string) (m : IO A) : Prop :=
  ∀ w, grows_on keys w (snd (m w)).

(** The files that processing a name may write: the descriptor, the copy of
    the template, and the copy placed inside when that path is a directory. *)
Definition output_keys `{Platform} (name : string) : list string :=
  [path_str (json_file_path name);
   path_str (uber_file_path name);
   os_path_join (path_str (uber_file_path name)) uber_template].

(** [s] ends with [suffix]. *)
Definition ends_with (suffix s : string) : Prop := ∃ pre, s = pre +:+ suffix.



(** A segment that stands for itself in a path: not empty, not a dot, not
    two dots. *)
Definition proper_segment (x : string) : bool :=
  Posix.is_part x && negb (String.eqb x "..").

(** A path text that names a file below the working directory and that the
    system resolves to itself: slash-separated proper segments. *)
Definition canonical_path (k : string) : bool :=
  forallb proper_segment (split_on "/" k).

(** A name that stays below the directory of the materials: it does not
    start with a slash and none of its segments is two dots. *)
Definition descending_name (name : string) : bool :=
  negb (String.prefix "/" name)
  && forallb (fun x => negb (String.eqb x "..")) (split_on "/" name).

(** A world whose manifest is the marker alone, with no brace before it. *)
Definition braceless_world : world :=
  {| files := {[ "common_flowstate.json" := first_matl_pattern ]};
     dirs := ∅;
     faults := ∅;
     stdin := [];
     stdout := [] |}.

(** ** Notions for the insertion point *)

(** A member of a JSON object as the manifest spells it. *)
Definition json_member (key value : string) : string :=
  dq +:+ key +:+ dq +:+ ": " +:+ dq +:+ value +:+ dq.

(** The block of a path as the specification words it: between braces, the
    type literal and the path. *)
Definition matl_block (path : string) : string :=
  "    {" +:+ nl
  +:+ "      " +:+ json_member "_type" "matl" +:+ "," +:+ nl
  +:+ "      " +:+ json_member "_path" path +:+ nl
  +:+ "    }," +:+ nl.

(** The blocks of a list of paths, in order. *)
Definition blocks_of (paths : list string) : string :=
  foldr (fun p acc => matl_block p +:+ acc) EmptyString paths.

(** The open braces of [s] that are still open at its end, innermost first,
    as indices counted from [pos]; [stack] holds the braces open before [s].
    Braces are counted as characters, wherever they stand. *)
Fixpoint open_braces (s : string) (pos : nat) (stack : list nat) : list nat :=
  match s with
  | EmptyString => stack
  | String c s' =>
      open_braces s' (S pos)
        (if Ascii.eqb c "{" then pos :: stack
         else if Ascii.eqb c "}" then tail stack
         else stack)
  end.

(** The index of the open brace of the object that index [i] of [content]
    lies in: for the index of a marker, the brace that starts its entry. *)
Definition enclosing_brace (content : string) (i : nat) : option nat :=
  head (open_braces (str_take i content) 0 []).

(** A manifest whose material entry holds an object before its type, in
    three parts: the text before the entry, the entry up to that object, and
    the object with the rest. *)
Definition nested_before : string :=
  "{ " +:+ dq +:+ "files" +:+ dq +:+ ": [ ".

Definition nested_entry_start : string :=
  "{ " +:+ dq +:+ "meta" +:+ dq +:+ ": ".

Definition nested_object : string :=
  "{ " +:+ dq +:+ "v" +:+ dq +:+ ": 1 }, ".

Definition nested_entry_rest : string :=
  nested_object +:+ json_member "_type" "matl" +:+ ", "
  +:+ json_member "_path" "material/old_sknp.rpak" +:+ " } ] }".

Definition nested_manifest : string :=
  nested_before +:+ nested_entry_start +:+ nested_entry_rest.

Definition nested_world : world :=
  {| files := {[ "testuber.uber" := "UBER"; "common_flowstate.json" := nested_manifest ]};
     dirs := ∅;
     faults := ∅;
     stdin := [];
     stdout := [] |}.

(** The sample manifest with every line ended by a carriage return and a
    line feed. *)
Definition crlf_manifest : string :=
  replace_char "010" (cr +:+ nl) sample_manifest.

Definition crlf_world : world :=
  {| files := {[ "testuber.uber" := "UBER"; "common_flowstate.json" := crlf_manifest ]};
     dirs := ∅;
     faults := ∅;
     stdin := [];
     stdout := [] |}.

(** ** Facts about texts *)

Section StrFacts.

Implicit Types (s t sub pre post : string) (c : ascii) (i j n : nat).

Lemma str_app_cons c s t : String c s +:+ t = String c (s +:+ t).
Proof. reflexivity. Qed.

Lemma str_app_nil_l s : EmptyString +:+ s = s.
Proof. reflexivity. Qed.

Lemma str_app_nil_r s : s +:+ EmptyString = s.
Proof. induction s as [|c s IH]; [done|]. by rewrite str_app_cons, IH. Qed.

Lemma str_app_assoc s t u : (s +:+ t) +:+ u = s +:+ t +:+ u.
Proof. induction s as [|c s IH]; [done|]. by rewrite !str_app_cons, IH. Qed.

Lemma str_app_length s t :
  String.length (s +:+ t) = String.length s + String.length t.
Proof. induction s as [|c s IH]; [done|]. rewrite str_app_cons. simpl. by rewrite IH. Qed.

Lemma prefix_app sub post : String.prefix sub (sub +:+ post) = true.
Proof.
  induction sub as [|c sub IH]; [by destruct post|].
  rewrite str_app_cons. simpl. by destruct (ascii_dec c c).
Qed.

Lemma prefix_inv sub s : String.prefix sub s = true → ∃ post, s = sub +:+ post.
Proof.
  revert s. induction sub as [|c sub IH]; intros s Hp.
  - by exists s.
  - destruct s as [|a s]; [done|]. simpl in Hp.
    destruct (ascii_dec c a) as [->|]; [|done].
    destruct (IH _ Hp) as [post ->]. by exists post.
Qed.

Lemma str_take_drop n s : str_take n s +:+ str_drop n s = s.
Proof.
  revert s. induction n as [|n IH]; intros [|c s]; try done.
  simpl. by rewrite str_app_cons, IH.
Qed.

Lemma str_take_app pre s : str_take (String.length pre) (pre +:+ s) = pre.
Proof.
  induction pre as [|c pre IH]; [by destruct s|].
  rewrite str_app_cons. simpl. by rewrite IH.
Qed.

Lemma str_drop_app pre s : str_drop (String.length pre) (pre +:+ s) = s.
Proof. induction pre as [|c pre IH]; [done|]. by rewrite str_app_cons. Qed.

Lemma str_take_length n s : n ≤ String.length s → String.length (str_take n s) = n.
Proof.
  revert s. induction n as [|n IH]; intros [|c s] Hn; simpl in *; try done; try lia.
  rewrite IH; lia.
Qed.

(** *** Occurrences *)

Lemma occurs_at_0 sub s : occurs_at sub s 0 ↔ String.prefix sub s = true.
Proof.
  split.
  - intros ([|??] & post & -> & Hl); [|done]. rewrite str_app_nil_l. apply prefix_app.
  - intros [post ->]%prefix_inv. by exists EmptyString, post.
Qed.

Lemma occurs_at_S sub c s i : occurs_at sub (String c s) (S i) ↔ occurs_at sub s i.
Proof.
  split.
  - intros ([|a pre] & post & Hs & Hl); [done|].
    rewrite str_app_cons in Hs. injection Hs as -> ->. injection Hl as <-.
    by exists pre, post.
  - intros (pre & post & -> & <-). by exists (String c pre), post.
Qed.

Lemma occurs_at_nil sub i : occurs_at sub EmptyString (S i) → False.
Proof. intros ([|a pre] & post & Hs & Hl); done. Qed.

Lemma occurs_at_bound sub s i : occurs_at sub s i → i + String.length sub ≤ String.length s.
Proof. intros (pre & post & -> & <-). rewrite !str_app_length. lia. Qed.

Lemma occurs_iff sub s : occurs sub s ↔ ∃ i, occurs_at sub s i.
Proof.
  split.
  - intros (pre & post & ->). exists (String.length pre). by exists pre, post.
  - intros (i & pre & post & -> & _). by exists pre, post.
Qed.

Lemma find_nat_nil sub :
  find_nat sub EmptyString = if String.prefix sub EmptyString then Some 0 else None.
Proof. reflexivity. Qed.

Lemma find_nat_cons sub c s :
  find_nat sub (String c s) =
  if String.prefix sub (String c s) then Some 0 else S <$> find_nat sub s.
Proof. reflexivity. Qed.

Lemma rfind_nat_nil sub :
  rfind_nat sub EmptyString = if String.prefix sub EmptyString then Some 0 else None.
Proof. reflexivity. Qed.

Lemma rfind_nat_cons sub c s :
  rfind_nat sub (String c s) =
  match rfind_nat sub s with
  | Some i => Some (S i)
  | None => if String.prefix sub (String c s) then Some 0 else None
  end.
Proof. reflexivity. Qed.

Lemma find_nat_Some sub s i : find_nat sub s = Some i → first_at sub s i.
Proof.
  revert i. induction s as [|c s IH]; intros i.
  - rewrite find_nat_nil. destruct (String.prefix sub EmptyString) eqn:Hp; [|done].
    intros [= <-]. split; [by apply occurs_at_0|]. lia.
  - rewrite find_nat_cons. destruct (String.prefix sub (String c s)) eqn:Hp.
    + intros [= <-]. split; [by apply occurs_at_0|]. lia.
    + destruct (find_nat sub s) as [k|]; [|done]. intros [= <-].
      destruct (IH k eq_refl) as [Hk Hmin]. split; [by apply occurs_at_S|].
      intros [|j] Hj.
      * rewrite occurs_at_0. congruence.
      * rewrite occurs_at_S. apply Hmin. lia.
Qed.

Lemma find_nat_None sub s : find_nat sub s = None → ¬ occurs sub s.
Proof.
  rewrite occurs_iff.
  induction s as [|c s IH].
  - rewrite find_nat_nil.
    destruct (String.prefix sub EmptyString) eqn:Hp; [done|]. intros _ [[|i] Hi].
    + apply occurs_at_0 in Hi. congruence.
    + by apply occurs_at_nil in Hi.
  - rewrite find_nat_cons.
    destruct (String.prefix sub (String c s)) eqn:Hp; [done|].
    destruct (find_nat sub s) as [k|]; [done|]. intros _ [[|i] Hi].
    + apply occurs_at_0 in Hi. congruence.
    + apply occurs_at_S in Hi. apply IH; eauto.
Qed.

Lemma str_in_occurs sub s : str_in sub s = true ↔ occurs sub s.
Proof.
  unfold str_in. destruct (find_nat sub s) as [i|] eqn:Hf.
  - split; [intros _|done]. apply occurs_iff. exists i. by apply find_nat_Some.
  - split; [done|]. intros Ho. by apply find_nat_None in Hf.
Qed.

Lemma rfind_nat_None sub s : rfind_nat sub s = None → ¬ occurs sub s.
Proof.
  rewrite occurs_iff.
  induction s as [|c s IH].
  - rewrite rfind_nat_nil.
    destruct (String.prefix sub EmptyString) eqn:Hp; [done|]. intros _ [[|i] Hi].
    + apply occurs_at_0 in Hi. congruence.
    + by apply occurs_at_nil in Hi.
  - rewrite rfind_nat_cons.
    destruct (rfind_nat sub s) as [k|]; [done|].
    destruct (String.prefix sub (String c s)) eqn:Hp; [done|]. intros _ [[|i] Hi].
    + apply occurs_at_0 in Hi. congruence.
    + apply occurs_at_S in Hi. apply IH; eauto.
Qed.

Lemma rfind_nat_Some sub s i :
  rfind_nat sub s = Some i →
  occurs_at sub s i ∧ ∀ j, i < j → ¬ occurs_at sub s j.
Proof.
  revert i. induction s as [|c s IH]; intros i.
  - rewrite rfind_nat_nil.
    destruct (String.prefix sub EmptyString) eqn:Hp; [|done].
    intros [= <-]. split; [by apply occurs_at_0|].
    intros [|j] Hj; [lia|]. intros Hocc. by apply occurs_at_nil in Hocc.
  - rewrite rfind_nat_cons.
    destruct (rfind_nat sub s) as [k|] eqn:Hr.
    + intros [= <-]. destruct (IH k eq_refl) as [Hk Hmax].
      split; [by apply occurs_at_S|].
      intros [|j] Hj; [lia|]. rewrite occurs_at_S. apply Hmax. lia.
    + destruct (String.prefix sub (String c s)) eqn:Hp; [|done].
      intros [= <-]. split; [by apply occurs_at_0|].
      intros [|j] Hj; [lia|]. rewrite occurs_at_S. intros Hocc.
      apply rfind_nat_None in Hr. apply Hr, occurs_iff. eauto.
Qed.

Lemma occurs_app_l sub s t : occurs sub s → occurs sub (s +:+ t).
Proof.
  intros (pre & post & ->). exists pre, (post +:+ t). by rewrite !str_app_assoc.
Qed.

Lemma occurs_app_r sub s t : occurs sub t → occurs sub (s +:+ t).
Proof.
  intros (pre & post & ->). exists (s +:+ pre), post. by rewrite !str_app_assoc.
Qed.

(** Two ways to cut the same text: one cut comes first. *)
Lemma str_app_eq_app s1 t1 s2 t2 :
  s1 +:+ t1 = s2 +:+ t2 →
  (∃ m, s2 = s1 +:+ m ∧ t1 = m +:+ t2) ∨ (∃ m, s1 = s2 +:+ m ∧ t2 = m +:+ t1).
Proof.
  revert s2. induction s1 as [|a s1 IH]; intros s2 Heq.
  - left. by exists s2.
  - destruct s2 as [|b s2].
    + right. by exists (String a s1).
    + rewrite !str_app_cons in Heq. injection Heq as -> Heq.
      destruct (IH _ Heq) as [(m & -> & ->)|(m & -> & ->)]; [left|right]; by exists m.
Qed.

(** An occurrence in a text cut in two lies on one side of the cut, unless it
    runs over the character that follows the cut. *)
Lemma occurs_insert sub pre c post ins :
  occurs sub (pre +:+ String c post) →
  ¬ occurs (chr c) sub →
  occurs sub (pre +:+ ins +:+ String c post).
Proof.
  intros (x & y & Heq) Hc. symmetry in Heq.
  destruct (str_app_eq_app _ _ _ _ Heq) as [(m & -> & Hm)|(m & -> & Hm)].
  - destruct (str_app_eq_app _ _ _ _ Hm) as [(m' & -> & ->)|(m' & -> & Hm')].
    + apply occurs_app_l. by exists x, m'.
    + destruct m' as [|a m'].
      * rewrite str_app_nil_r. apply occurs_app_l. exists x, EmptyString.
        by rewrite str_app_nil_r.
      * rewrite str_app_cons in Hm'. injection Hm' as <- _.
        destruct Hc. exists m, m'. done.
  - apply occurs_app_r, occurs_app_r. rewrite Hm. by exists m, y.
Qed.

Lemma occurs_chr_cons c a s :
  occurs (chr c) (String a s) ↔ a = c ∨ occurs (chr c) s.
Proof.
  split.
  - intros ([|b pre] & post & Heq).
    + injection Heq as -> _. by left.
    + rewrite str_app_cons in Heq. injection Heq as _ ->. right. by exists pre, post.
  - intros [->|(pre & post & ->)].
    + by exists EmptyString, s.
    + by exists (String a pre), post.
Qed.

Lemma occurs_chr_nil c : ¬ occurs (chr c) EmptyString.
Proof. intros ([|??] & ? & Heq); done. Qed.

Lemma occurs_chr_app c s t :
  occurs (chr c) (s +:+ t) ↔ occurs (chr c) s ∨ occurs (chr c) t.
Proof.
  induction s as [|a s IH].
  - rewrite str_app_nil_l. split; [by right|]. intros [Hn|?]; [|done].
    by apply occurs_chr_nil in Hn.
  - rewrite str_app_cons, !occurs_chr_cons, IH. tauto.
Qed.

Lemma str_app_inv_tail s t u : s +:+ u = t +:+ u → s = t.
Proof.
  intros Heq. assert (String.length s = String.length t) as Hlen.
  { apply (f_equal String.length) in Heq. rewrite !str_app_length in Heq. lia. }
  rewrite <- (str_take_app s u), Heq, Hlen. apply str_take_app.
Qed.

Lemma replace_char_same c s : replace_char c (chr c) s = s.
Proof.
  induction s as [|a s IH]; [done|]. simpl.
  destruct (Ascii.eqb_spec a c) as [->|Hne]; by rewrite IH.
Qed.

Lemma replace_char_cons c new a s :
  replace_char c new (String a s) =
  if Ascii.eqb a c then new +:+ replace_char c new s
  else String a (replace_char c new s).
Proof. reflexivity. Qed.

Lemma replace_char_app c new s t :
  replace_char c new (s +:+ t) = replace_char c new s +:+ replace_char c new t.
Proof.
  induction s as [|a s IH]; [done|].
  rewrite str_app_cons, !replace_char_cons, IH.
  destruct (Ascii.eqb a c); [by rewrite str_app_assoc|done].
Qed.

End StrFacts.

(** ** Facts about the console and the manifest patcher *)

Section PatcherFacts.

Context `{Platform}.
Implicit Types (w : world) (content stored : string) (paths : list string).

Lemma printed_nil w : printed [] w = w.
Proof. destruct w. unfold printed, set_stdout. simpl. by rewrite List.app_nil_r. Qed.

Lemma printed_app out1 out2 w : printed out2 (printed out1 w) = printed (out1 ++ out2) w.
Proof. unfold printed, set_stdout. simpl. by rewrite List.app_assoc. Qed.

Lemma print_printed s w : print s w = (Ret tt, printed [s +:+ nl] w).
Proof. reflexivity. Qed.

Lemma files_printed out w : files (printed out w) = files w.
Proof. reflexivity. Qed.

Lemma read_bytes_printed p out w :
  read_bytes p (printed out w) =
  (fst (read_bytes p w), printed out (snd (read_bytes p w))).
Proof.
  unfold read_bytes. simpl.
  destruct (files w !! p); [destruct (faults w !! p) as [[]|]|case_bool_decide]; done.
Qed.

Lemma read_file_printed p out w :
  read_file p (printed out w) =
  (fst (read_file p w), printed out (snd (read_file p w))).
Proof.
  unfold read_file, io_bind. rewrite read_bytes_printed.
  by destruct (read_bytes p w) as [[data|e] w1].
Qed.

Lemma read_bytes_ok p w stored :
  files w !! p = Some stored → faults w !! p ≠ Some ReadDenied →
  read_bytes p w = (Ret stored, w).
Proof.
  intros Hf Hd. unfold read_bytes. rewrite Hf.
  destruct (faults w !! p) as [[]|]; done.
Qed.

Lemma read_file_ok p w stored :
  files w !! p = Some stored → faults w !! p ≠ Some ReadDenied →
  read_file p w = (Ret (universal_newlines stored), w).
Proof.
  intros Hf Hd. unfold read_file, io_bind. by rewrite (read_bytes_ok _ _ _ Hf Hd).
Qed.

Lemma classify_spec content paths new0 ex0 w :
  classify content paths new0 ex0 w =
  (Ret (new0 ++ List.filter (fun p => negb (present_in content p)) paths,
        ex0 ++ List.filter (present_in content) paths),
   printed (map skip_line (List.filter (present_in content) paths)) w).
Proof.
  revert new0 ex0 w. induction paths as [|p paths IH]; intros new0 ex0 w.
  - simpl. unfold io_ret. by rewrite !List.app_nil_r, printed_nil.
  - simpl. change (str_in (quoted p) content) with (present_in content p).
    destruct (present_in content p) eqn:Hin; simpl.
    + unfold io_bind. rewrite print_printed, IH, printed_app. simpl.
      unfold skip_line. by rewrite str_app_assoc, <- List.app_assoc.
    + by rewrite IH, <- List.app_assoc.
Qed.

Lemma build_entries_spec paths acc :
  build_entries paths acc = acc +:+ entries_text paths.
Proof.
  revert acc. induction paths as [|p paths IH]; intros acc; simpl.
  - by rewrite str_app_nil_r.
  - by rewrite IH, str_app_assoc.
Qed.

End PatcherFacts.

Section PatcherCases.

Context `{Platform}.
Implicit Types (w : world) (content stored : string) (paths : list string).

Lemma str_find_absent s sub : ¬ occurs sub s → str_find s sub = (-1)%Z.
Proof.
  intros Hno. unfold str_find. destruct (find_nat sub s) as [i|] eqn:Hf; [|done].
  destruct Hno. apply occurs_iff. exists i. by apply find_nat_Some.
Qed.

Lemma str_find_present s sub (i : Z) :
  str_find s sub = i → i ≠ (-1)%Z →
  ∃ k, i = Z.of_nat k ∧ first_at sub s k.
Proof.
  unfold str_find. destruct (find_nat sub s) as [k|] eqn:Hf; [|congruence].
  intros <- _. exists k. split; [done|]. by apply find_nat_Some.
Qed.

(** What the patcher does once the manifest has been read and the paths
    have been sorted out. *)
Lemma update_after_read paths w stored :
  files w !! json_file = Some stored →
  faults w !! json_file ≠ Some ReadDenied →
  update_common_flowstate_json paths w =
  let content := universal_newlines stored in
  let new := List.filter (fun p => negb (present_in content p)) paths in
  let existing := List.filter (present_in content) paths in
  let w1 := printed (map skip_line existing) w in
  match new with
  | [] => print "All material paths already exist in common_flowstate.json. No changes made." w1
  | _ :: _ =>
      let i := str_find content first_matl_pattern in
      if (i =? -1)%Z
      then print "Warning: No existing material entries found in common_flowstate.json" w1
      else
        let j := str_rfind content "{" 0 i in
        if (j =? -1)%Z
        then print "Error: Could not find the start of the first material entry" w1
        else
          try_except
            (write_file json_file
               (slice_to content j +:+ entries_text new +:+ slice_from content j) ;;
             print ("Added " +:+ str_of_nat (length new)
                    +:+ " new material entries to common_flowstate.json") ;;
             match existing with
             | [] => io_ret tt
             | _ :: _ =>
                 print ("Skipped " +:+ str_of_nat (length existing)
                        +:+ " existing entries")
             end)%io
            (fun e =>
               Some (print ("Error writing to " +:+ json_file +:+ ": " +:+ exn_str e)))
            w1
  end.
Proof.
  intros Hf Hd. unfold update_common_flowstate_json.
  unfold io_bind at 1. unfold try_except at 1. unfold io_bind at 1.
  rewrite (read_file_ok _ _ _ Hf Hd). unfold io_ret at 1.
  unfold io_bind at 1. rewrite classify_spec. simpl List.app.
  cbv zeta. set (content := universal_newlines stored).
  destruct (List.filter _ paths) as [|p new] eqn:Hnew; [done|].
  destruct (str_find content first_matl_pattern =? -1)%Z; [done|].
  destruct (str_rfind content "{" 0 (str_find content first_matl_pattern) =? -1)%Z; [done|].
  by rewrite build_entries_spec, str_app_nil_l.
Qed.

End PatcherCases.

Section PatcherClaims.

Context `{Platform}.
Implicit Types (w : world) (content stored : string) (paths : list string).

Lemma write_bytes_ok p data w :
  is_Some (files w !! p) ∨ p ∉ dirs w →
  faults w !! p = None →
  write_bytes p data w = (Ret tt, set_files (<[p := data]> (files w)) w).
Proof.
  intros Hp Hf. unfold write_bytes. rewrite Hf.
  case_bool_decide as Hd; [|done].
  destruct Hd as [Hnone Hdir]. destruct Hp as [[? Hs]|?]; [congruence|done].
Qed.

Lemma write_file_ok p data w :
  is_Some (files w !! p) ∨ p ∉ dirs w →
  faults w !! p = None →
  write_file p data w
  = (Ret tt, set_files (<[p := newline_out data]> (files w)) w).
Proof. apply write_bytes_ok. Qed.

Lemma norm_index_nat (n k : nat) :
  k ≤ n → norm_index (Z.of_nat n) (Z.of_nat k) = Z.of_nat k.
Proof.
  intros Hk. unfold norm_index.
  destruct (Z.of_nat k <? 0)%Z eqn:Hneg; [apply Z.ltb_lt in Hneg; lia|]. lia.
Qed.

Lemma elem_of_filter_present content paths p :
  p ∈ List.filter (present_in content) paths ↔ p ∈ paths ∧ occurs (quoted p) content.
Proof.
  rewrite !list_elem_of_In, List.filter_In. unfold present_in.
  by rewrite str_in_occurs.
Qed.

Lemma elem_of_filter_absent content paths p :
  p ∈ List.filter (fun q => negb (present_in content q)) paths ↔
  p ∈ paths ∧ ¬ occurs (quoted p) content.
Proof.
  rewrite !list_elem_of_In, List.filter_In. unfold present_in.
  rewrite negb_true_iff, <- not_true_iff_false. by rewrite str_in_occurs.
Qed.

(** C5. Once the manifest is read, a candidate path goes to the existing
    ones, and is skipped with a message, exactly when the path between
    double quotes is a substring of the manifest text (the text that is
    read: the characters of the file with their newlines read as line
    feeds); every other candidate is new. When none is new the patcher says
    that nothing changed and returns without writing: only the console
    differs, the files are the same. *)
Theorem existing_paths_are_skipped paths w stored :
  files w !! json_file = Some stored →
  faults w !! json_file ≠ Some ReadDenied →
  let content := universal_newlines stored in
  let new := List.filter (fun p => negb (present_in content p)) paths in
  let existing := List.filter (present_in content) paths in
  classify content paths [] [] w
    = (Ret (new, existing), printed (map skip_line existing) w)
  ∧ (∀ p, p ∈ existing ↔ p ∈ paths ∧ occurs (dq +:+ p +:+ dq) content)
  ∧ (∀ p, p ∈ new ↔ p ∈ paths ∧ ¬ occurs (dq +:+ p +:+ dq) content)
  ∧ (new = [] →
     update_common_flowstate_json paths w
     = (Ret tt,
        printed (map skip_line existing ++
                 ["All material paths already exist in common_flowstate.json. No changes made."
                  +:+ nl]) w)
     ∧ files (snd (update_common_flowstate_json paths w)) = files w).
Proof.
  intros Hf Hd content new existing. split; [by rewrite classify_spec|].
  split; [apply elem_of_filter_present|].
  split; [apply elem_of_filter_absent|].
  intros Hnew. rewrite (update_after_read _ _ _ Hf Hd). cbv zeta.
  fold content. fold new existing. rewrite Hnew, print_printed, printed_app. done.
Qed.

(** C6. When the manifest text, as it is read, holds no occurrence of the
    marker and at least one candidate path is new, the patcher prints its
    warning and returns; the files, the manifest among them, are what they
    were. *)
Theorem no_marker_no_change paths w stored :
  files w !! json_file = Some stored →
  faults w !! json_file ≠ Some ReadDenied →
  let content := universal_newlines stored in
  ¬ occurs first_matl_pattern content →
  (∃ p, p ∈ paths ∧ ¬ occurs (dq +:+ p +:+ dq) content) →
  update_common_flowstate_json paths w
  = (Ret tt,
     printed (map skip_line (List.filter (present_in content) paths) ++
              ["Warning: No existing material entries found in common_flowstate.json"
               +:+ nl]) w)
  ∧ files (snd (update_common_flowstate_json paths w)) = files w.
Proof.
  intros Hf Hd content Hno (p & Hp & Hnew).
  rewrite (update_after_read _ _ _ Hf Hd). cbv zeta. fold content.
  destruct (List.filter (fun q => negb _) paths) as [|q new] eqn:Hnews.
  - assert (p ∈ @nil string) as Hnil; [|by apply elem_of_nil in Hnil].
    rewrite <- Hnews. by apply elem_of_filter_absent.
  - rewrite (str_find_absent _ _ Hno). simpl Z.eqb. cbv iota.
    by rewrite print_printed, printed_app.
Qed.

End PatcherClaims.

Section Insertion.

Context `{Platform}.
Implicit Types (w : world) (content stored : string) (paths : list string).

(** Where [rfind] puts the brace: the text before the marker splits around
    its last open brace. *)
Lemma rfind_brace_split content (k : nat) (j : Z) :
  k ≤ String.length content →
  str_rfind content "{" 0 (Z.of_nat k) = j → j ≠ (-1)%Z →
  ∃ pre mid,
    str_take k content = pre +:+ "{" +:+ mid ∧ ¬ occurs "{" mid ∧
    j = Z.of_nat (String.length pre).
Proof.
  intros Hk. unfold str_rfind. rewrite (norm_index_nat _ _ Hk).
  replace (norm_index _ 0) with 0%Z by (unfold norm_index; simpl; lia).
  rewrite Nat2Z.id. simpl Z.to_nat. simpl str_drop.
  replace (str_drop 0 (str_take k content)) with (str_take k content)
    by (by destruct (str_take k content)).
  destruct (rfind_nat "{" (str_take k content)) as [m|] eqn:Hr; [|congruence].
  intros <- _. apply rfind_nat_Some in Hr as [(pre & mid & Heq & Hlen) Hlast].
  exists pre, mid. split; [done|]. split; [|lia].
  intros (x & y & ->). apply (Hlast (m + 1 + String.length x)); [lia|].
  exists (pre +:+ "{" +:+ x), y. split.
  - by rewrite Heq, !str_app_assoc.
  - rewrite !str_app_length. simpl. lia.
Qed.

(** The block that the code builds is the block of the specification. *)
Lemma entry_block_spec p : entry_block p = matl_block p.
Proof. unfold entry_block, matl_block, json_member. by rewrite !str_app_assoc. Qed.

Lemma entries_text_blocks paths : entries_text paths = blocks_of paths.
Proof.
  unfold entries_text, blocks_of.
  induction paths as [|p paths IH]; [done|]. simpl. by rewrite IH, entry_block_spec.
Qed.

Lemma first_matl_pattern_spec : first_matl_pattern = json_member "_type" "matl".
Proof. reflexivity. Qed.

(** *** The brace that encloses the marker *)

Lemma open_braces_cons c s pos stack :
  open_braces (String c s) pos stack =
  open_braces s (S pos)
    (if Ascii.eqb c "{" then pos :: stack
     else if Ascii.eqb c "}" then tail stack
     else stack).
Proof. reflexivity. Qed.

Lemma open_braces_app s t pos stack :
  open_braces (s +:+ t) pos stack
  = open_braces t (pos + String.length s) (open_braces s pos stack).
Proof.
  revert pos stack. induction s as [|c s IH]; intros pos stack.
  - rewrite str_app_nil_l. simpl. by rewrite Nat.add_0_r.
  - rewrite str_app_cons, !open_braces_cons, IH. simpl String.length.
    by rewrite Nat.add_succ_r.
Qed.

Lemma open_braces_bound s pos stack :
  Forall (fun x => x < pos) stack →
  Forall (fun x => x < pos + String.length s) (open_braces s pos stack).
Proof.
  revert pos stack. induction s as [|c s IH]; intros pos stack Hst.
  - simpl. by rewrite Nat.add_0_r.
  - rewrite open_braces_cons. simpl String.length. rewrite Nat.add_succ_r.
    apply (IH (S pos)).
    assert (Forall (fun x => x < S pos) stack) as Hst'.
    { eapply Forall_impl; [exact Hst|]. simpl. lia. }
    destruct (Ascii.eqb c "{"); [constructor; [lia|done]|].
    destruct (Ascii.eqb c "}"); [|done].
    destruct stack as [|x stack]; [done|]. by apply Forall_cons in Hst' as [_ ?].
Qed.

(** With no open brace in it, a text only closes braces. *)
Lemma open_braces_closing s pos stack :
  ¬ occurs "{" s → ∃ n, open_braces s pos stack = drop n stack.
Proof.
  revert pos stack. induction s as [|c s IH]; intros pos stack Hno.
  - by exists 0.
  - change "{"%string with (chr "{") in *. rewrite occurs_chr_cons in Hno.
    rewrite open_braces_cons.
    destruct (Ascii.eqb_spec c "{") as [->|_]; [tauto|].
    destruct (Ascii.eqb c "}").
    + destruct (IH (S pos) (tail stack)) as [n Hn]; [tauto|].
      exists (S n). rewrite Hn. destruct stack; [simpl; by rewrite drop_nil|done].
    + apply IH. tauto.
Qed.

Lemma open_braces_same s pos stack :
  ¬ occurs "{" s → ¬ occurs "}" s → open_braces s pos stack = stack.
Proof.
  revert pos stack. induction s as [|c s IH]; intros pos stack Hopen Hclose; [done|].
  change "{"%string with (chr "{") in *. change "}"%string with (chr "}") in *.
  rewrite occurs_chr_cons in Hopen, Hclose. rewrite open_braces_cons.
  destruct (Ascii.eqb_spec c "{") as [->|_]; [tauto|].
  destruct (Ascii.eqb_spec c "}") as [->|_]; [tauto|].
  apply IH; tauto.
Qed.

Lemma open_braces_closed s pos x stack :
  ¬ occurs "{" s → occurs "}" s → Forall (fun y => y < x) stack →
  head (open_braces s pos (x :: stack)) ≠ Some x.
Proof.
  revert pos. induction s as [|c s IH]; intros pos Hopen Hclose Hst.
  { change "}"%string with (chr "}") in Hclose. by apply occurs_chr_nil in Hclose. }
  change "{"%string with (chr "{") in *. change "}"%string with (chr "}") in *.
  rewrite occurs_chr_cons in Hopen, Hclose. rewrite open_braces_cons.
  destruct (Ascii.eqb_spec c "{") as [->|_]; [tauto|].
  destruct (Ascii.eqb_spec c "}") as [->|Hne].
  - simpl tail. destruct (open_braces_closing s (S pos) stack) as [n ->]; [tauto|].
    intros Hhead. apply head_Some_elem_of in Hhead.
    apply list_elem_of_lookup in Hhead as [i Hi]. rewrite lookup_drop in Hi.
    apply (Forall_lookup_1 _ _ _ _ Hst) in Hi. lia.
  - apply IH; tauto.
Qed.

(** The last open brace before a position is the one that encloses it
    exactly when no close brace stands in between. *)
Lemma enclosing_brace_last pre mid post :
  ¬ occurs "{" mid →
  enclosing_brace (pre +:+ "{" +:+ mid +:+ post) (String.length (pre +:+ "{" +:+ mid))
  = Some (String.length pre)
  ↔ ¬ occurs "}" mid.
Proof.
  intros Hopen. unfold enclosing_brace.
  replace (pre +:+ "{" +:+ mid +:+ post) with ((pre +:+ "{" +:+ mid) +:+ post)
    by (by rewrite !str_app_assoc).
  rewrite str_take_app, open_braces_app.
  change ("{" +:+ mid) with (String "{" mid). rewrite open_braces_cons. simpl Ascii.eqb.
  cbv iota. simpl Nat.add.
  pose proof (open_braces_bound pre 0 [] (Forall_nil_2 _)) as Hbound.
  simpl in Hbound. split.
  - intros Hhead Hclose. revert Hhead. by apply open_braces_closed.
  - intros Hclose. by rewrite open_braces_same.
Qed.

(** C2, amended. When some path is new and both searches succeed, the
    text that was read (the manifest with its newlines read as line feeds)
    splits as [pre], an open brace, a brace-free [mid], the first occurrence
    of the marker, and [rest]. The patcher returns and the manifest then
    holds, with every line feed written as the line separator: [pre], one
    block per new path in the order of the candidates, each block holding
    the type literal and that path between braces, and then the brace,
    [mid], the marker and [rest]. The brace is the last one before the
    marker; it is the brace of the entry that holds the marker exactly when
    no close brace stands between them. When the characters of the manifest
    are what text mode writes for the text it read from them, they are all
    kept, before and after the blocks. *)
Theorem entries_inserted_before_first_matl paths w stored (i j : Z) :
  files w !! json_file = Some stored →
  faults w !! json_file = None →
  let content := universal_newlines stored in
  let new := List.filter (fun p => negb (present_in content p)) paths in
  let marker := json_member "_type" "matl" in
  let w' := snd (update_common_flowstate_json paths w) in
  new ≠ [] →
  str_find content first_matl_pattern = i → i ≠ (-1)%Z →
  str_rfind content "{" 0 i = j → j ≠ (-1)%Z →
  ∃ pre mid rest,
    content = pre +:+ "{" +:+ mid +:+ marker +:+ rest
    ∧ j = Z.of_nat (String.length pre)
    ∧ ¬ occurs "{" mid
    ∧ first_at marker content (String.length (pre +:+ "{" +:+ mid))
    ∧ (enclosing_brace content (String.length (pre +:+ "{" +:+ mid))
       = Some (String.length pre) ↔ ¬ occurs "}" mid)
    ∧ fst (update_common_flowstate_json paths w) = Ret tt
    ∧ files w'
      = <[json_file := newline_out (pre +:+ blocks_of new +:+ "{" +:+ mid
                                    +:+ marker +:+ rest)]> (files w)
    ∧ dirs w' = dirs w
    ∧ (newline_out content = stored →
       stored = newline_out pre +:+ newline_out ("{" +:+ mid +:+ marker +:+ rest)
       ∧ files w' !! json_file
         = Some (newline_out pre +:+ newline_out (blocks_of new)
                 +:+ newline_out ("{" +:+ mid +:+ marker +:+ rest))).
Proof.
  intros Hf Hfault content new marker w' Hnew Hi Hi1 Hj Hj1.
  destruct (str_find_present _ _ _ Hi Hi1) as (k & -> & Hfirst).
  pose proof Hfirst as [(a & rest & Hcontent & Hlen) _].
  assert (k ≤ String.length content) as Hk.
  { rewrite Hcontent, str_app_length. lia. }
  destruct (rfind_brace_split _ _ _ Hk Hj Hj1) as (pre & mid & Htake & Hmid & ->).
  assert (a = pre +:+ "{" +:+ mid) as Ha.
  { rewrite <- Htake, Hcontent, <- Hlen. by rewrite str_take_app. }
  exists pre, mid, rest.
  assert (content = pre +:+ "{" +:+ mid +:+ marker +:+ rest) as Hsplit.
  { unfold marker. rewrite <- first_matl_pattern_spec.
    by rewrite Hcontent, Ha, !str_app_assoc. }
  assert (files w'
          = <[json_file := newline_out (pre +:+ blocks_of new +:+ "{" +:+ mid
                                        +:+ marker +:+ rest)]> (files w)
          ∧ fst (update_common_flowstate_json paths w) = Ret tt
          ∧ dirs w' = dirs w) as (Hfiles & Hret & Hdirs).
  { unfold w'. rewrite (update_after_read paths w stored Hf) by congruence. cbv zeta.
    fold content. fold new. destruct new as [|p new'] eqn:Hnews; [done|].
    rewrite Hi. destruct (Z.eqb_spec (Z.of_nat k) (-1)); [done|].
    rewrite Hj. destruct (Z.eqb_spec (Z.of_nat (String.length pre)) (-1)); [done|].
    assert (String.length pre ≤ String.length content) as Hpre.
    { rewrite Hsplit, str_app_length. lia. }
    assert (str_take (String.length pre) content = pre) as Htk.
    { rewrite Hsplit. apply str_take_app. }
    assert (str_drop (String.length pre) content
            = "{" +:+ mid +:+ marker +:+ rest) as Hdr.
    { rewrite Hsplit. apply str_drop_app. }
    unfold slice_to, slice_from. rewrite (norm_index_nat _ _ Hpre), Nat2Z.id, Htk, Hdr.
    rewrite entries_text_blocks.
    unfold try_except, io_bind.
    rewrite write_file_ok; [|left; rewrite files_printed; eauto|done].
    rewrite print_printed.
    destruct (List.filter (present_in content) paths); done. }
  split; [done|]. split; [done|]. split; [done|].
  split; [unfold marker; rewrite <- first_matl_pattern_spec; by rewrite <- Ha, Hlen|].
  split; [rewrite Hsplit; by apply enclosing_brace_last|].
  split; [done|]. split; [done|]. split; [done|].
  intros Hnative. split.
  - rewrite <- Hnative, Hsplit. unfold newline_out. by rewrite replace_char_app.
  - rewrite Hfiles, lookup_insert_eq. unfold newline_out.
    by rewrite !replace_char_app.
Qed.

End Insertion.

(** ** Facts about [IO] *)

Section IOFacts.

Context {A B : Type}.
Implicit Types (m : IO A) (k : A → IO B) (w : world).

Lemma bind_Ret m k w b w' :
  io_bind m k w = (Ret b, w') ↔
  ∃ a w1, m w = (Ret a, w1) ∧ k a w1 = (Ret b, w').
Proof.
  unfold io_bind. destruct (m w) as [[a|e] w1]; split.
  - intros Hk. by exists a, w1.
  - by intros (? & ? & [= <- <-] & Hk).
  - done.
  - by intros (? & ? & [=] & _).
Qed.

Lemma bind_Exc m k w e :
  fst (io_bind m k w) = Exc e ↔
  fst (m w) = Exc e ∨ ∃ a w1, m w = (Ret a, w1) ∧ fst (k a w1) = Exc e.
Proof.
  unfold io_bind. destruct (m w) as [[a|e'] w1]; simpl; split.
  - intros Hk. right. by exists a, w1.
  - intros [Hk|(a' & w2 & Heq & Hk)]; [done|]. by injection Heq as -> ->.
  - intros [= ->]. by left.
  - intros [[= ->]|(a' & w2 & Heq & _)]; done.
Qed.

Lemma bind_Ret_l m k w a w1 : m w = (Ret a, w1) → io_bind m k w = k a w1.
Proof. unfold io_bind. by intros ->. Qed.

Lemma bind_Exc_l m k w e w1 : m w = (Exc e, w1) → io_bind m k w = (Exc e, w1).
Proof. unfold io_bind. by intros ->. Qed.

End IOFacts.

(** ** Facts about the generator *)

Section GeneratorFacts.

Context `{Platform}.
Implicit Types (w : world) (names paths : list string).

Lemma os_path_exists_absent p w :
  absent p w → os_path_exists p w = (Ret false, w).
Proof.
  intros [Hf Hd]. unfold os_path_exists. case_bool_decide as Hex; [|done].
  destruct Hex as [[? Hs]|?]; [congruence|done].
Qed.

Lemma os_path_exists_file p w data :
  files w !! p = Some data → os_path_exists p w = (Ret true, w).
Proof.
  intros Hf. unfold os_path_exists. case_bool_decide as Hex; [done|].
  destruct Hex. left. eauto.
Qed.

Lemma read_file_absent p w : absent p w → read_file p w = (Exc (FileNotFoundError p), w).
Proof.
  intros [Hf Hd]. unfold read_file, io_bind, read_bytes. rewrite Hf.
  by case_bool_decide.
Qed.

Lemma update_manifest_absent paths w :
  absent json_file w →
  update_common_flowstate_json paths w
  = (Ret tt, printed ["Error: common_flowstate.json not found" +:+ nl] w).
Proof.
  intros Habs. unfold update_common_flowstate_json.
  unfold io_bind at 1. unfold try_except at 1. unfold io_bind at 1.
  by rewrite (read_file_absent _ _ Habs).
Qed.

Lemma process_material_paths name acc w ps w' :
  process_material name acc w = (Ret ps, w') → ps = acc ++ [material_path name].
Proof.
  unfold process_material. intros Hp.
  repeat (apply bind_Ret in Hp as (? & ? & _ & Hp)).
  by injection Hp as <- _.
Qed.

Lemma process_materials_paths names acc w ps w' :
  process_materials names acc w = (Ret ps, w') →
  ps = acc ++ map material_path names.
Proof.
  revert acc w. induction names as [|name names IH]; intros acc w; simpl.
  - intros [= <- _]. by rewrite List.app_nil_r.
  - intros (ps1 & w1 & H1 & H2)%bind_Ret.
    apply process_material_paths in H1 as ->. apply IH in H2 as ->.
    by rewrite <- List.app_assoc.
Qed.

End GeneratorFacts.

Section MissingFiles.

Context `{Platform}.
Implicit Types (w : world) (names paths : list string).

(** C7. Without the template the generator prints its error and returns
    before any name is processed: only the console differs. Without the
    manifest the patcher prints its error and returns, so that a run whose
    materials were generated ends with the files those steps left. *)
Theorem missing_files_abort_their_phase names paths w :
  (names ≠ [] → absent uber_template w →
   generate_materials names w
   = (Ret tt,
      printed ["Error: testuber.uber not found in the current directory." +:+ nl] w))
  ∧ (absent json_file w →
     update_common_flowstate_json paths w
     = (Ret tt, printed ["Error: common_flowstate.json not found" +:+ nl] w))
  ∧ (∀ ps w1,
       names ≠ [] → ¬ absent uber_template w →
       process_materials names [] w = (Ret ps, w1) →
       absent json_file w1 →
       generate_materials names w
       = (Ret tt,
          printed [nl +:+ "Updating common_flowstate.json..." +:+ nl;
                   "Error: common_flowstate.json not found" +:+ nl;
                   nl +:+ "Completed processing " +:+ str_of_nat (length names)
                   +:+ " materials." +:+ nl] w1)).
Proof.
  split; [|split].
  - intros Hne Habs. destruct names as [|n names]; [done|].
    unfold generate_materials.
    by rewrite (bind_Ret_l _ _ _ _ _ (os_path_exists_absent _ _ Habs)).
  - apply update_manifest_absent.
  - intros ps w1 Hne Hex Hps Habs. destruct names as [|n names]; [done|].
    unfold generate_materials.
    assert (os_path_exists uber_template w = (Ret true, w)) as Hex'.
    { unfold os_path_exists. case_bool_decide as Hd; [done|]. destruct Hex.
      split; [|tauto]. destruct (files w !! uber_template) eqn:Hf; [|done].
      destruct Hd. left. eauto. }
    rewrite (bind_Ret_l _ _ _ _ _ Hex'). cbv beta. cbn [negb].
    rewrite (bind_Ret_l _ _ _ _ _ Hps). cbv beta.
    unfold io_bind at 1. rewrite print_printed.
    unfold io_bind at 1. rewrite update_manifest_absent by done.
    by rewrite print_printed, !printed_app, !str_app_assoc.
Qed.

End MissingFiles.

(** ** Facts about [split] and names that end in a slash *)

Section SplitFacts.

Implicit Types (s stem : string) (c : ascii).

Lemma split_on_nonempty c s : split_on c s ≠ [].
Proof.
  destruct s as [|a s]; [done|]. simpl.
  destruct (Ascii.eqb a c); [done|]. by destruct (split_on c s).
Qed.


Lemma join_split c s : join (chr c) (split_on c s) = s.
Proof.
  unfold join. induction s as [|a s IH]; [done|]. simpl.
  destruct (Ascii.eqb_spec a c) as [->|Hne].
  - pose proof (split_on_nonempty c s) as Hs.
    simpl. destruct (split_on c s) as [|h t]; [done|].
    rewrite IH. done.
  - pose proof (split_on_nonempty c s) as Hs.
    destruct (split_on c s) as [|h t]; [done|].
    rewrite <- IH. simpl. destruct t; done.
Qed.




End SplitFacts.

(** ** Facts about the filesystem operations *)

Section FsFacts.

Context `{Platform}.
Implicit Types (w : world) (p : string) (e : exn).









Lemma read_bytes_world p w : snd (read_bytes p w) = w.
Proof.
  unfold read_bytes.
  destruct (files w !! p); [destruct (faults w !! p) as [[]|]|case_bool_decide]; done.
Qed.

Lemma read_file_world p w : snd (read_file p w) = w.
Proof.
  unfold read_file, io_bind. pose proof (read_bytes_world p w) as Hw.
  by destruct (read_bytes p w) as [[data|e] w1].
Qed.

Lemma read_bytes_Ret p w data w' :
  read_bytes p w = (Ret data, w') → files w !! p = Some data ∧ w' = w.
Proof.
  unfold read_bytes. destruct (files w !! p) as [d|].
  - destruct (faults w !! p) as [[]|]; intros [=]; by subst.
  - by case_bool_decide.
Qed.

Lemma read_file_Ret p w data w' :
  read_file p w = (Ret data, w') →
  ∃ stored, files w !! p = Some stored ∧ data = universal_newlines stored ∧ w' = w.
Proof.
  unfold read_file. intros (stored & w1 & [Hf ->]%read_bytes_Ret & [= <- <-])%bind_Ret.
  by exists stored.
Qed.

(** Reading as text raises what reading the characters raises. *)
Lemma read_file_Exc p w e :
  fst (read_file p w) = Exc e ↔ fst (read_bytes p w) = Exc e.
Proof.
  unfold read_file, io_bind. by destruct (read_bytes p w) as [[data|e'] w1].
Qed.

End FsFacts.

Section ProcessFacts.

Context `{Platform}.
Implicit Types (w : world) (name : string) (acc : list string).




End ProcessFacts.

Section Failures.

Context `{Platform}.
Implicit Types (w : world) (name : string) (acc names paths : list string) (e : exn).

Lemma print_Ret s w : fst (print s w) = Ret tt.
Proof. done. Qed.

Lemma read_bytes_Ret_faults p w data w' :
  read_bytes p w = (Ret data, w') → faults w !! p ≠ Some ReadDenied.
Proof.
  unfold read_bytes. destruct (files w !! p) as [d|].
  - destruct (faults w !! p) as [[]|]; by intros [=].
  - by case_bool_decide.
Qed.

Lemma read_file_Ret_faults p w data w' :
  read_file p w = (Ret data, w') → faults w !! p ≠ Some ReadDenied.
Proof.
  unfold read_file. intros (stored & w1 & Hrd & _)%bind_Ret.
  by eapply read_bytes_Ret_faults.
Qed.

(** The patcher raises only what reading the manifest raises, the missing
    file apart. *)
Lemma update_Exc paths w e :
  fst (update_common_flowstate_json paths w) = Exc e ↔
  fst (read_file json_file w) = Exc e ∧ is_FileNotFoundError e = false.
Proof.
  destruct (read_file json_file w) as [[content|e'] w1] eqn:Hread.
  - pose proof (read_file_Ret_faults _ _ _ _ Hread) as Hd.
    apply read_file_Ret in Hread as (stored & Hf & -> & ->).
    rewrite (update_after_read _ _ _ Hf Hd). cbv zeta. simpl.
    split; [|by intros [[=] _]].
    destruct (List.filter _ paths); [done|].
    destruct (_ =? _)%Z; [done|]. destruct (_ =? _)%Z; [done|].
    unfold try_except. destruct (io_bind _ _ _) as [[[]|e''] w2]; done.
  - unfold update_common_flowstate_json.
    unfold io_bind at 1. unfold try_except at 1. unfold io_bind at 1.
    rewrite Hread. simpl. destruct (is_FileNotFoundError e') eqn:Hfnf; simpl.
    + split; [done|]. intros [[= ->] Hn]. congruence.
    + split; [intros [= ->]; by split|]. by intros [[= ->] _].
Qed.

Lemma process_material_Exc name acc w e :
  fst (process_material name acc w) = Exc e ↔
  let w0 := printed ["Processing material: " +:+ name +:+ nl] w in
  let json_path := path_str (json_file_path name) in
  let uber_path := path_str (uber_file_path name) in
  fst (mkdir_parents (path_lineage (material_dir name)) w0) = Exc e
  ∨ ∃ w1,
      mkdir_parents (path_lineage (material_dir name)) w0 = (Ret tt, w1)
      ∧ (fst (write_file json_path (Json.dumps 4 (create_material_json name)) w1) = Exc e
         ∨ ∃ w2,
             write_file json_path (Json.dumps 4 (create_material_json name)) w1
             = (Ret tt, w2)
             ∧ fst (copy2 uber_template uber_path w2) = Exc e).
Proof.
  cbv zeta. unfold process_material.
  rewrite bind_Exc, print_printed, str_app_assoc. simpl fst.
  split.
  - intros [[=]|([] & w0 & [= <-] & Hp)].
    apply bind_Exc in Hp as [Hp|([] & w1 & Hmk & Hp)]; [by left|].
    right. exists w1. split; [done|].
    apply bind_Exc in Hp as [Hp|([] & w2 & Hwr & Hp)]; [by left|].
    right. exists w2. split; [done|].
    apply bind_Exc in Hp as [Hp|([] & w3 & Hcp & Hp)]; [done|].
    apply bind_Exc in Hp as [Hp|([] & w4 & Hp4 & Hp)]; [done|].
    apply bind_Exc in Hp as [Hp|([] & w5 & Hp5 & Hp)]; done.
  - intros Hcases. right. eexists tt, _. split; [done|].
    apply bind_Exc. destruct Hcases as [Hmk|(w1 & Hmk & Hcases)]; [by left|].
    right. exists tt, w1. split; [done|].
    apply bind_Exc. destruct Hcases as [Hwr|(w2 & Hwr & Hcp)]; [by left|].
    right. exists tt, w2. split; [done|].
    apply bind_Exc. by left.
Qed.

Lemma process_materials_Exc name rest acc w e :
  fst (process_materials (name :: rest) acc w) = Exc e ↔
  fst (process_material name acc w) = Exc e
  ∨ ∃ ps w1, process_material name acc w = (Ret ps, w1)
             ∧ fst (process_materials rest ps w1) = Exc e.
Proof. simpl. apply bind_Exc. Qed.

Lemma os_path_exists_present p w :
  ¬ absent p w → os_path_exists p w = (Ret true, w).
Proof.
  intros Hex. unfold os_path_exists. case_bool_decide as Hd; [done|]. destruct Hex.
  split; [|tauto]. destruct (files w !! p) eqn:Hf; [|done].
  destruct Hd. left. eauto.
Qed.

Lemma generate_materials_Exc names w e :
  names ≠ [] → ¬ absent uber_template w →
  fst (generate_materials names w) = Exc e ↔
  fst (process_materials names [] w) = Exc e
  ∨ ∃ ps w1, process_materials names [] w = (Ret ps, w1)
             ∧ fst (read_file json_file w1) = Exc e
             ∧ is_FileNotFoundError e = false.
Proof.
  intros Hne Hex. destruct names as [|n names]; [done|].
  unfold generate_materials.
  rewrite (bind_Ret_l _ _ _ _ _ (os_path_exists_present _ _ Hex)).
  cbv beta. cbn [negb]. rewrite bind_Exc.
  apply or_iff_compat_l. split.
  - intros (ps & w1 & Hps & Hk). exists ps, w1. split; [done|].
    apply bind_Exc in Hk as [Hk|([] & w2 & Hw2 & Hk)]; [done|].
    rewrite print_printed in Hw2. injection Hw2 as <-.
    apply bind_Exc in Hk as [Hk|([] & w3 & Hw3 & Hk)]; [|done].
    apply update_Exc in Hk as [Hk Hfnf]. split; [|done].
    by rewrite read_file_printed in Hk.
  - intros (ps & w1 & Hps & Hrd & Hfnf). exists ps, w1. split; [done|].
    apply bind_Exc. right. eexists tt, _. split; [by rewrite print_printed|].
    apply bind_Exc. left. apply update_Exc. split; [|done].
    by rewrite read_file_printed.
Qed.

(** A failed write of the manifest is reported and the patcher returns. *)
Lemma update_write_failure paths w stored e w2 :
  files w !! json_file = Some stored →
  faults w !! json_file ≠ Some ReadDenied →
  let content := universal_newlines stored in
  let new := List.filter (fun p => negb (present_in content p)) paths in
  let existing := List.filter (present_in content) paths in
  let i := str_find content first_matl_pattern in
  let j := str_rfind content "{" 0 i in
  new ≠ [] → i ≠ (-1)%Z → j ≠ (-1)%Z →
  write_file json_file
    (slice_to content j +:+ entries_text new +:+ slice_from content j)
    (printed (map skip_line existing) w) = (Exc e, w2) →
  update_common_flowstate_json paths w
  = (Ret tt,
     printed ["Error writing to common_flowstate.json: " +:+ exn_str e +:+ nl] w2).
Proof.
  intros Hf Hd content new existing i j Hnew Hi Hj Hwr.
  rewrite (update_after_read _ _ _ Hf Hd). cbv zeta. fold content.
  fold new existing i j. destruct new as [|p new']; [done|].
  destruct (Z.eqb_spec i (-1)); [done|]. destruct (Z.eqb_spec j (-1)); [done|].
  unfold try_except. rewrite (bind_Exc_l _ _ _ _ _ Hwr).
  by rewrite print_printed, !str_app_assoc.
Qed.

End Failures.

Section MainFacts.

Context `{Platform}.
Implicit Types (w : world) (names rest : list string) (answer : string).

Lemma print_numbered_spec i names w :
  print_numbered i names w = (Ret tt, printed (numbered_lines i names) w).
Proof.
  revert i w. induction names as [|name names IH]; intros i w; simpl.
  - unfold io_ret. by rewrite printed_nil.
  - unfold io_bind. rewrite print_printed, IH, printed_app. simpl.
    by rewrite !str_app_assoc.
Qed.

Lemma stdin_printed out w : stdin (printed out w) = stdin w.
Proof. done. Qed.

(** [main] up to the answer to its question. *)
Lemma main_after_answer w names answer rest :
  read_names (stdin w) [] = (Ret names, answer :: rest) →
  names ≠ [] →
  main w =
  (if affirmative (lower (strip answer))
   then generate_materials names
   else print "Operation cancelled.") (asked names rest w).
Proof.
  intros Hread Hne. unfold main.
  unfold io_bind at 1. rewrite print_printed.
  unfold io_bind at 1. rewrite print_printed, printed_app.
  unfold io_bind at 1. rewrite print_printed, printed_app.
  unfold io_bind at 1. unfold collect_names. rewrite stdin_printed, Hread.
  destruct names as [|n names]; [done|].
  unfold io_bind at 1. rewrite print_printed.
  unfold io_bind at 1. rewrite print_numbered_spec.
  unfold io_bind at 1. unfold input_prompt, input. simpl.
  unfold asked, printed, set_stdin, set_stdout. simpl.
  by rewrite <- !List.app_assoc, !str_app_assoc.
Qed.

Lemma affirmative_spec s :
  affirmative (lower s) = true ↔ eq_ignoring_case s "y" ∨ eq_ignoring_case s "yes".
Proof.
  unfold affirmative, eq_ignoring_case.
  rewrite orb_true_iff, !String.eqb_eq. done.
Qed.

End MainFacts.

Section GeneratorClaims.

Context `{Platform}.
Implicit Types (w : world) (names rest : list string) (answer : string).

(** C9. Once the names are collected and echoed, [main] goes on to the
    generation exactly when the answer, stripped, equals y or yes up to
    case; on any other answer it prints that the operation is cancelled
    and returns, with the files and the directories it started with. *)
Theorem confirmation_gates_generation w names answer rest :
  read_names (stdin w) [] = (Ret names, answer :: rest) →
  names ≠ [] →
  let confirmed :=
    eq_ignoring_case (strip answer) "y" ∨ eq_ignoring_case (strip answer) "yes" in
  (confirmed → main w = generate_materials names (asked names rest w))
  ∧ (¬ confirmed →
     main w = (Ret tt, printed ["Operation cancelled." +:+ nl] (asked names rest w))
     ∧ files (snd (main w)) = files w
     ∧ dirs (snd (main w)) = dirs w).
Proof.
  intros Hread Hne confirmed. rewrite (main_after_answer _ _ _ _ Hread Hne).
  pose proof (affirmative_spec (strip answer)) as Haff. fold confirmed in Haff.
  destruct (affirmative (lower (strip answer))).
  - split; [done|]. intros Hno. destruct Hno. by apply Haff.
  - split; [|done]. intros Hyes. apply Haff in Hyes. done.
Qed.

(** C8. A run over the names that returns has recorded, for every name
    and in the order of the names, the one path material/<name>_sknp.rpak,
    whatever the platform and the state of the filesystem; this list is what
    the patcher is then called with. *)
Theorem recorded_paths_follow_names names w ps w' :
  process_materials names [] w = (Ret ps, w') →
  ps = map (fun name => "material/" +:+ name +:+ "_sknp.rpak") names
  ∧ (names ≠ [] → ¬ absent uber_template w →
     generate_materials names w =
     (print (nl +:+ "Updating common_flowstate.json...") ;;
      update_common_flowstate_json
        (map (fun name => "material/" +:+ name +:+ "_sknp.rpak") names) ;;
      print (nl +:+ "Completed processing " +:+ str_of_nat (length names)
             +:+ " materials.")) w').
Proof.
  intros Hps. pose proof (process_materials_paths _ _ _ _ _ Hps) as Heq.
  simpl in Heq. split; [done|]. intros Hne Hex.
  destruct names as [|n names]; [done|]. unfold generate_materials.
  rewrite (bind_Ret_l _ _ _ _ _ (os_path_exists_present _ _ Hex)).
  cbv beta. cbn [negb]. rewrite (bind_Ret_l _ _ _ _ _ Hps). by rewrite Heq.
Qed.


End GeneratorClaims.

(** ** The descriptor *)

Section Descriptor.

(** C1, amended. The sub-mapping of texture references has exactly the
    seven keys 0 to 6, and their values are texture/<name>_0.rpak to
    texture/<name>_6.rpak, where <name> is the whole material name; the
    name field holds that same name. *)
Theorem textures_are_seven_prefixed_refs (name : string) :
  ∃ entries,
    Json.get "$textures" (create_material_json name) = Some (JDict entries)
    ∧ map fst entries = texture_keys
    ∧ map snd entries = texture_refs name
    ∧ Json.get "name" (create_material_json name) = Some (JStr name).
Proof. eexists. split; [reflexivity|]. by repeat split. Qed.

(** C1 as worded fails: for the name rock the references are not
    rock_0.rpak to rock_6.rpak, they carry the texture/ prefix. *)
Lemma textures_are_not_bare_refs :
  Json.get "$textures" (create_material_json "rock")
  = Some (JDict (zip texture_keys (texture_refs "rock")))
  ∧ texture_refs "rock" ≠ bare_texture_refs "rock".
Proof. split; [reflexivity|]. vm_compute. discriminate. Qed.

End Descriptor.

(** ** Runs on sample worlds *)

Section Runs.

#[local] Existing Instance Posix.platform.

(** C3 fails on the code. With a path given twice and not yet in the
    manifest, both copies pass the test against the text that was read, and
    the manifest written back holds the path twice. *)
Theorem repeated_candidate_is_entered_twice :
  let w := sample_world [] in
  let w' := snd (update_common_flowstate_json repeated_paths w) in
  let written :=
    sample_head +:+ entry_block "material/a_sknp.rpak"
    +:+ entry_block "material/a_sknp.rpak" +:+ sample_tail in
  count_occurrences (quoted "material/a_sknp.rpak") sample_manifest = 0
  ∧ fst (update_common_flowstate_json repeated_paths w) = Ret tt
  ∧ files w' !! json_file = Some written
  ∧ count_occurrences (quoted "material/a_sknp.rpak") written = 2.
Proof. cbv zeta. repeat split; vm_compute; reflexivity. Qed.

(** The same through [main], the name a being entered twice. *)
Example repeated_name_is_entered_twice :
  files (snd (main (sample_world ["a"; "a"; EmptyString; "y"]))) !! json_file
  = Some (sample_head +:+ entry_block "material/a_sknp.rpak"
          +:+ entry_block "material/a_sknp.rpak" +:+ sample_tail).
Proof. vm_compute. reflexivity. Qed.

(** C4 as worded fails: the manifest being protected against writing, the
    write raises, and yet the run returns, having printed the error and
    left the manifest as it was. *)
Lemma manifest_write_failure_is_caught :
  let w := protected_world ["a"; EmptyString; "y"] in
  fst (write_file json_file
         (sample_head +:+ entry_block "material/a_sknp.rpak" +:+ sample_tail) w)
  = Exc (PermissionError json_file)
  ∧ fst (main w) = Ret tt
  ∧ was_printed
      ("Error writing to common_flowstate.json: "
       +:+ "[Errno 13] Permission denied: 'common_flowstate.json'" +:+ nl)
      (stdout (snd (main w))) = true
  ∧ files (snd (main w)) !! json_file = Some sample_manifest.
Proof. cbv zeta. repeat split; vm_compute; reflexivity. Qed.

(** C2 as worded fails. The material entry of this manifest holds an
    object before its type. The last open brace before the marker is the
    brace of that object, not the brace that starts the entry, and the block
    of the new path is written there, inside the entry, and not before it. *)
Theorem block_can_land_inside_the_entry :
  let p := "material/a_sknp.rpak" in
  let w' := snd (update_common_flowstate_json [p] nested_world) in
  let marker_at :=
    String.length (nested_before +:+ nested_entry_start +:+ nested_object) in
  str_find nested_manifest first_matl_pattern = Z.of_nat marker_at
  ∧ enclosing_brace nested_manifest marker_at = Some (String.length nested_before)
  ∧ str_rfind nested_manifest "{" 0 (Z.of_nat marker_at)
    = Z.of_nat (String.length (nested_before +:+ nested_entry_start))
  ∧ fst (update_common_flowstate_json [p] nested_world) = Ret tt
  ∧ files w' !! json_file
    = Some (nested_before +:+ nested_entry_start +:+ matl_block p
            +:+ nested_entry_rest)
  ∧ files w' !! json_file
    ≠ Some (nested_before +:+ matl_block p +:+ nested_entry_start
            +:+ nested_entry_rest).
Proof.
  cbv zeta. repeat split; try (vm_compute; reflexivity).
  vm_compute. discriminate.
Qed.

(** Nor are the characters of the manifest always kept: where its lines end
    with a carriage return and a line feed, what is written back on POSIX
    has plain line feeds, before and after the block. *)
Example carriage_returns_are_not_kept :
  let p := "material/a_sknp.rpak" in
  let w' := snd (update_common_flowstate_json [p] crlf_world) in
  files crlf_world !! json_file
  = Some (replace_char "010" (cr +:+ nl) sample_head
          +:+ replace_char "010" (cr +:+ nl) sample_tail)
  ∧ files w' !! json_file = Some (sample_head +:+ matl_block p +:+ sample_tail)
  ∧ replace_char "010" (cr +:+ nl) sample_head ≠ sample_head.
Proof.
  cbv zeta. repeat split; try (vm_compute; reflexivity).
  vm_compute. discriminate.
Qed.

(** A path that holds a carriage return is read back with a line feed in its
    place, so it is not found the second time and is entered again. *)
Example path_with_carriage_return_is_entered_again :
  let p := "material/a" +:+ cr +:+ "b_sknp.rpak" in
  let w1 := snd (update_common_flowstate_json [p] (sample_world [])) in
  let w2 := snd (update_common_flowstate_json [p] w1) in
  let added := "Added 1 new material entries to common_flowstate.json" +:+ nl in
  files w1 !! json_file = Some (sample_head +:+ matl_block p +:+ sample_tail)
  ∧ stdout w1 = [added]
  ∧ stdout w2 = [added; added]
  ∧ count_occurrences first_matl_pattern
      (default EmptyString (files w1 !! json_file)) = 2
  ∧ count_occurrences first_matl_pattern
      (default EmptyString (files w2 !! json_file)) = 3.
Proof. cbv zeta. repeat split; vm_compute; reflexivity. Qed.

(** The names foo/bar and baz against a manifest with one material entry:
    two blocks, in that order, right before the entry. *)
Example two_names_are_entered_in_order :
  files (snd (main (sample_world ["foo/bar"; "baz"; EmptyString; "yes"]))) !! json_file
  = Some (sample_head +:+ entry_block "material/foo/bar_sknp.rpak"
          +:+ entry_block "material/baz_sknp.rpak" +:+ sample_tail).
Proof. vm_compute. reflexivity. Qed.

End Runs.

(** ** Which failures end the run *)

Section FailureClaims.

Context `{Platform}.
Implicit Types (w : world) (name answer : string) (acc names rest paths : list string).

(** C4, amended. A failure of a filesystem step of the generation (ensuring
    the directory, writing the descriptor, copying the template) ends the
    processing of the name, of the list of names and of [generate_materials]
    with that exception; so does a failure to read the manifest other than
    its absence; and [main] catches nothing. A failure to write the
    manifest does not: the patcher catches it, prints it after
    "Error writing to common_flowstate.json: " and returns, so the patcher
    never raises anything but a read failure. *)
Theorem failures_propagate_except_manifest_write name acc names rest paths answer w e :
  (fst (process_material name acc w) = Exc e ↔
     let w0 := printed ["Processing material: " +:+ name +:+ nl] w in
     let json_path := path_str (json_file_path name) in
     let uber_path := path_str (uber_file_path name) in
     let descriptor := Json.dumps 4 (create_material_json name) in
     fst (mkdir_parents (path_lineage (material_dir name)) w0) = Exc e
     ∨ ∃ w1,
         mkdir_parents (path_lineage (material_dir name)) w0 = (Ret tt, w1)
         ∧ (fst (write_file json_path descriptor w1) = Exc e
            ∨ ∃ w2, write_file json_path descriptor w1 = (Ret tt, w2)
                    ∧ fst (copy2 uber_template uber_path w2) = Exc e))
  ∧ (fst (process_materials (name :: names) acc w) = Exc e ↔
       fst (process_material name acc w) = Exc e
       ∨ ∃ ps w1, process_material name acc w = (Ret ps, w1)
                  ∧ fst (process_materials names ps w1) = Exc e)
  ∧ (names ≠ [] → ¬ absent uber_template w →
     (fst (generate_materials names w) = Exc e ↔
        fst (process_materials names [] w) = Exc e
        ∨ ∃ ps w1, process_materials names [] w = (Ret ps, w1)
                   ∧ fst (read_file json_file w1) = Exc e
                   ∧ is_FileNotFoundError e = false))
  ∧ (read_names (stdin w) [] = (Ret names, answer :: rest) → names ≠ [] →
     affirmative (lower (strip answer)) = true →
     (fst (main w) = Exc e ↔
        fst (generate_materials names (asked names rest w)) = Exc e))
  ∧ (fst (update_common_flowstate_json paths w) = Exc e ↔
       fst (read_file json_file w) = Exc e ∧ is_FileNotFoundError e = false)
  ∧ (∀ stored w2,
       files w !! json_file = Some stored →
       faults w !! json_file ≠ Some ReadDenied →
       let content := universal_newlines stored in
       let new := List.filter (fun p => negb (present_in content p)) paths in
       let existing := List.filter (present_in content) paths in
       let i := str_find content first_matl_pattern in
       let j := str_rfind content "{" 0 i in
       new ≠ [] → i ≠ (-1)%Z → j ≠ (-1)%Z →
       write_file json_file
         (slice_to content j +:+ entries_text new +:+ slice_from content j)
         (printed (map skip_line existing) w) = (Exc e, w2) →
       update_common_flowstate_json paths w
       = (Ret tt,
          printed ["Error writing to common_flowstate.json: " +:+ exn_str e +:+ nl]
            w2)).
Proof.
  split; [apply process_material_Exc|].
  split; [apply process_materials_Exc|].
  split; [apply generate_materials_Exc|].
  split; [|split; [apply update_Exc|]].
  - intros Hread Hne Haff. rewrite (main_after_answer _ _ _ _ Hread Hne). by rewrite Haff.
  - intros stored w2. apply update_write_failure.
Qed.

End FailureClaims.

(** ** The properties at work on the sample worlds *)

Section Witnesses.

#[local] Existing Instance Posix.platform.

Lemma entries_inserted_witness :
  files (sample_world []) !! json_file = Some sample_manifest
  ∧ ∃ pre mid rest,
      sample_manifest = pre +:+ "{" +:+ mid +:+ json_member "_type" "matl" +:+ rest
      ∧ files (snd (update_common_flowstate_json two_paths (sample_world [])))
          !! json_file
        = Some (newline_out pre +:+ newline_out (blocks_of two_paths)
                +:+ newline_out ("{" +:+ mid +:+ json_member "_type" "matl"
                                 +:+ rest)).
Proof.
  split; [reflexivity|].
  pose proof (entries_inserted_before_first_matl two_paths (sample_world [])
                sample_manifest 27 19 eq_refl eq_refl) as Hrun.
  cbv zeta in Hrun.
  destruct Hrun as (pre & mid & rest & Hsplit & _ & _ & _ & _ & _ & _ & _ & Hkept).
  - vm_compute. discriminate.
  - reflexivity.
  - lia.
  - reflexivity.
  - lia.
  - exists pre, mid, rest. split; [exact Hsplit|]. apply Hkept. reflexivity.
Defined.

Lemma existing_paths_witness :
  classify sample_manifest ["material/old_sknp.rpak"] [] [] (sample_world [])
  = (Ret ([], ["material/old_sknp.rpak"]),
     printed [skip_line "material/old_sknp.rpak"] (sample_world []))
  ∧ files (snd (update_common_flowstate_json ["material/old_sknp.rpak"]
                  (sample_world [])))
    = files (sample_world []).
Proof.
  pose proof (existing_paths_are_skipped ["material/old_sknp.rpak"] (sample_world [])
                sample_manifest eq_refl) as Hrun.
  cbv zeta in Hrun.
  destruct Hrun as (Hclass & _ & _ & Hnone).
  - vm_compute. discriminate.
  - split; [exact Hclass|]. apply Hnone. reflexivity.
Defined.

Lemma no_marker_witness :
  ¬ occurs first_matl_pattern "{ }"
  ∧ files (snd (update_common_flowstate_json two_paths markerless_world))
    = files markerless_world.
Proof.
  assert (¬ occurs first_matl_pattern "{ }") as Hno.
  { apply find_nat_None. reflexivity. }
  split; [exact Hno|].
  apply (no_marker_no_change two_paths markerless_world "{ }").
  - reflexivity.
  - vm_compute. discriminate.
  - exact Hno.
  - exists "material/baz_sknp.rpak". split.
    + apply list_elem_of_In. simpl. tauto.
    + apply find_nat_None. reflexivity.
Defined.

Lemma missing_files_witness :
  generate_materials ["a"] empty_world
  = (Ret tt,
     printed ["Error: testuber.uber not found in the current directory." +:+ nl]
       empty_world)
  ∧ update_common_flowstate_json two_paths empty_world
    = (Ret tt, printed ["Error: common_flowstate.json not found" +:+ nl] empty_world).
Proof.
  destruct (missing_files_abort_their_phase ["a"] two_paths empty_world)
    as (Htemplate & Hmanifest & _).
  split.
  - apply Htemplate; [discriminate|]. split; [reflexivity | compute_done].
  - apply Hmanifest. split; [reflexivity | compute_done].
Defined.

Lemma recorded_paths_witness :
  fst (process_materials ["foo/bar"; "baz"] [] (sample_world [])) = Ret two_paths
  ∧ two_paths
    = map (fun name => "material/" +:+ name +:+ "_sknp.rpak") ["foo/bar"; "baz"].
Proof.
  split; [vm_compute; reflexivity|].
  apply (recorded_paths_follow_names ["foo/bar"; "baz"] (sample_world []) two_paths
           (snd (process_materials ["foo/bar"; "baz"] [] (sample_world [])))).
  vm_compute. reflexivity.
Defined.

Lemma confirmation_witness :
  main (sample_world ["foo"; EmptyString; "n"])
  = (Ret tt,
     printed ["Operation cancelled." +:+ nl]
       (asked ["foo"] [] (sample_world ["foo"; EmptyString; "n"])))
  ∧ main (sample_world ["foo"; EmptyString; " YES "])
    = generate_materials ["foo"]
        (asked ["foo"] [] (sample_world ["foo"; EmptyString; " YES "])).
Proof.
  split.
  - apply (confirmation_gates_generation (sample_world ["foo"; EmptyString; "n"])
             ["foo"] "n" []); [reflexivity | discriminate |].
    vm_compute. intros [Hy|Hyes]; discriminate.
  - apply (confirmation_gates_generation (sample_world ["foo"; EmptyString; " YES "])
             ["foo"] " YES " []); [reflexivity | discriminate |].
    right. reflexivity.
Defined.


Lemma failures_witness :
  update_common_flowstate_json two_paths (protected_world [])
  = (Ret tt,
     printed ["Error writing to common_flowstate.json: "
              +:+ exn_str (PermissionError json_file) +:+ nl]
       (protected_world [])).
Proof.
  destruct (failures_propagate_except_manifest_write "a" [] ["a"] [] two_paths "y"
              (protected_world []) (PermissionError json_file))
    as (_ & _ & _ & _ & _ & Hwrite).
  apply (Hwrite sample_manifest (protected_world [])).
  - reflexivity.
  - vm_compute. discriminate.
  - vm_compute. discriminate.
  - vm_compute. discriminate.
  - vm_compute. discriminate.
  - vm_compute. reflexivity.
Defined.

End Witnesses.

(** ** Reading the names *)

Section ReadingNames.

Implicit Types (line s : string) (lines raw rest names acc : list string).

Lemma truthy_nonempty s : truthy s = true ↔ s ≠ EmptyString.
Proof. by destruct s. Qed.

Lemma read_names_Ret lines acc names rest :
  read_names lines acc = (Ret names, rest) ↔
  ∃ raw line,
    lines = raw ++ line :: rest
    ∧ Forall (fun l => ¬ blank l) raw
    ∧ blank line
    ∧ names = acc ++ map strip raw.
Proof.
  revert acc. induction lines as [|l lines IH]; intros acc; simpl.
  - split; [done|]. intros ([|??] & ? & ? & _); done.
  - destruct (truthy (strip l)) eqn:Hl.
    + rewrite IH. apply truthy_nonempty in Hl. split.
      * intros (raw & line & -> & Hraw & Hline & ->).
        exists (l :: raw), line. rewrite <- List.app_assoc. by repeat constructor.
      * intros ([|l' raw] & line & Heq & Hraw & Hline & ->); simpl in Heq.
        { injection Heq as -> ->. done. }
        injection Heq as <- ->. apply Forall_cons in Hraw as [_ Hraw].
        exists raw, line. by rewrite <- List.app_assoc.
    + assert (blank l) as Hb.
      { unfold blank. by destruct (strip l). }
      split.
      * intros [= <- <-]. exists [], l. by rewrite List.app_nil_r.
      * intros ([|l' raw] & line & Heq & Hraw & Hline & ->); simpl in Heq.
        { injection Heq as -> ->. by rewrite List.app_nil_r. }
        injection Heq as <- ->. by apply Forall_cons in Hraw as [? _].
Qed.

Lemma read_names_Exc lines acc e rest :
  read_names lines acc = (Exc e, rest) ↔
  e = EOFError ∧ rest = [] ∧ Forall (fun l => ¬ blank l) lines.
Proof.
  revert acc. induction lines as [|l lines IH]; intros acc; simpl.
  - split; [by intros [= <- <-]|]. by intros (-> & -> & _).
  - destruct (truthy (strip l)) eqn:Hl.
    + rewrite IH. apply truthy_nonempty in Hl. split.
      * intros (-> & -> & Hall). by repeat constructor.
      * intros (-> & -> & [_ Hall]%Forall_cons). done.
    + split; [done|]. intros (_ & _ & [Hnb _]%Forall_cons).
      destruct Hnb. unfold blank. by destruct (strip l).
Qed.

(** *** Stripping *)

Lemma lstrip_idem s : lstrip (lstrip s) = lstrip s.
Proof.
  induction s as [|c s IH]; [done|]. simpl.
  destruct (isspace c) eqn:Hc; [done|]. simpl. by rewrite Hc.
Qed.

Lemma rstrip_cons c s :
  rstrip (String c s) =
  match rstrip s with
  | EmptyString => if isspace c then EmptyString else chr c
  | r => String c r
  end.
Proof. reflexivity. Qed.

Lemma rstrip_idem s : rstrip (rstrip s) = rstrip s.
Proof.
  induction s as [|c s IH]; [done|]. rewrite rstrip_cons.
  destruct (rstrip s) as [|a r] eqn:Hr.
  - destruct (isspace c) eqn:Hc; [done|]. unfold chr. rewrite rstrip_cons. simpl.
    by rewrite Hc.
  - rewrite rstrip_cons, IH. done.
Qed.

Lemma lstrip_cons c s :
  lstrip (String c s) = if isspace c then lstrip s else String c s.
Proof. reflexivity. Qed.

Lemma rstrip_lstrip s : rstrip s = s → rstrip (lstrip s) = lstrip s.
Proof.
  induction s as [|c s IH]; [done|]. intros Hs. rewrite lstrip_cons.
  destruct (isspace c) eqn:Hc; [|done].
  apply IH. rewrite rstrip_cons in Hs.
  destruct (rstrip s) as [|a r] eqn:Hr; [by rewrite Hc in Hs|].
  by injection Hs.
Qed.

Lemma strip_trimmed s : trimmed (strip s).
Proof.
  unfold trimmed, strip. split; [apply lstrip_idem|].
  apply rstrip_lstrip, rstrip_idem.
Qed.

Lemma strip_idem s : strip (strip s) = strip s.
Proof.
  destruct (strip_trimmed s) as [Hl Hr]. unfold strip at 1. by rewrite Hr, Hl.
Qed.

End ReadingNames.

(** ** What [main] does with its input *)

Section MainInput.

Context `{Platform}.
Implicit Types (w : world) (line : string) (raw rest names : list string).

Lemma main_after_banner w :
  main w =
  (material_names <- collect_names ;;
   match material_names with
   | [] => print "No material names provided. Exiting."
   | _ :: _ =>
       print (nl +:+ "Material names to process:") ;;
       print_numbered 1 material_names ;;
       answer <- input_prompt (nl +:+ "Proceed with generation? (y/N): ") ;;
       if affirmative (lower (strip answer))
       then generate_materials material_names
       else print "Operation cancelled."
   end) (printed banner w).
Proof.
  unfold main.
  unfold io_bind at 1. rewrite print_printed.
  unfold io_bind at 1. rewrite print_printed, printed_app.
  unfold io_bind at 1. by rewrite print_printed, printed_app.
Qed.

Lemma collect_names_Ret w names w' :
  collect_names w = (Ret names, w') ↔
  ∃ raw line rest,
    stdin w = raw ++ line :: rest
    ∧ Forall (fun l => ¬ blank l) raw
    ∧ blank line
    ∧ names = map strip raw
    ∧ w' = set_stdin rest w.
Proof.
  unfold collect_names.
  destruct (read_names (stdin w) []) as [[ns|e] rest0] eqn:Hread.
  - apply read_names_Ret in Hread as (raw & line & Hin & Hraw & Hline & Hns).
    simpl in Hns. split.
    + intros [= <- <-]. by exists raw, line, rest0.
    + intros (raw' & line' & rest' & Hin' & Hraw' & Hline' & -> & ->).
      assert (read_names (stdin w) [] = (Ret (map strip raw'), rest')) as Hread'.
      { apply read_names_Ret. by exists raw', line'. }
      assert (read_names (stdin w) [] = (Ret ns, rest0)) as Hread.
      { apply read_names_Ret. by exists raw, line. }
      rewrite Hread in Hread'. by injection Hread' as -> ->.
  - split; [done|].
    intros (raw' & line' & rest' & Hin' & Hraw' & Hline' & -> & ->).
    assert (read_names (stdin w) [] = (Ret (map strip raw'), rest')) as Hread'.
    { apply read_names_Ret. by exists raw', line'. }
    by rewrite Hread in Hread'.
Qed.

(** X1. The names that [main] collects are the lines before the first blank
    one, stripped, in their order; the blank line is consumed and the lines
    after it stay on the input. *)
Theorem collected_names_are_the_stripped_lines w names w' :
  collect_names w = (Ret names, w') ↔
  ∃ raw line rest,
    stdin w = raw ++ line :: rest
    ∧ Forall (fun l => ¬ blank l) raw
    ∧ blank line
    ∧ names = map strip raw
    ∧ w' = set_stdin rest w.
Proof. apply collect_names_Ret. Qed.

(** X2. Every collected name is non-empty and has no white space at either
    end. *)
Theorem collected_names_are_trimmed w names w' :
  collect_names w = (Ret names, w') →
  Forall (fun name => name ≠ EmptyString ∧ trimmed name) names.
Proof.
  intros (raw & line & rest & _ & Hraw & _ & -> & _)%collect_names_Ret.
  apply Forall_fmap. eapply Forall_impl; [exact Hraw|].
  intros l Hl. simpl. split; [exact Hl | apply strip_trimmed].
Qed.

Lemma collect_names_printed out w :
  collect_names (printed out w)
  = (fst (collect_names w), printed out (snd (collect_names w))).
Proof.
  unfold collect_names. simpl. by destruct (read_names (stdin w) []).
Qed.

(** X3. When the first line is blank, [main] says that no names were
    provided and returns: that one line is consumed, no question is asked,
    and only the console differs. *)
Theorem blank_first_line_ends_main w line rest :
  stdin w = line :: rest → blank line →
  main w
  = (Ret tt,
     set_stdin rest
       (printed (banner ++ ["No material names provided. Exiting." +:+ nl]) w)).
Proof.
  intros Hin Hline. rewrite main_after_banner.
  assert (collect_names w = (Ret [], set_stdin rest w)) as Hc.
  { apply collect_names_Ret. exists [], line, rest. by repeat split. }
  unfold io_bind at 1. rewrite collect_names_printed, Hc. cbn [fst snd].
  rewrite print_printed, printed_app. reflexivity.
Qed.

(** X4. The end of the input is not a way to finish: when it comes before a
    blank line, or before the answer to the question, [main] ends with an
    unhandled EOFError, and the files and directories are untouched. *)
Theorem end_of_input_raises w names :
  (Forall (fun l => ¬ blank l) (stdin w) →
   main w = (Exc EOFError, set_stdin [] (printed banner w)))
  ∧ (read_names (stdin w) [] = (Ret names, []) → names ≠ [] →
     main w = (Exc EOFError, asked names [] w)).
Proof.
  split.
  - intros Hall. rewrite main_after_banner.
    assert (read_names (stdin w) [] = (Exc EOFError, [])) as Hr.
    { by apply read_names_Exc. }
    unfold io_bind at 1. rewrite collect_names_printed. unfold collect_names.
    by rewrite Hr.
  - intros Hr Hne. rewrite main_after_banner.
    unfold io_bind at 1. rewrite collect_names_printed. unfold collect_names.
    rewrite Hr. simpl. destruct names as [|n names]; [done|].
    unfold io_bind at 1. rewrite print_printed.
    unfold io_bind at 1. rewrite print_numbered_spec.
    unfold io_bind at 1. unfold input_prompt, input. simpl.
    unfold asked, printed, set_stdin, set_stdout. simpl.
    by rewrite <- !List.app_assoc, !str_app_assoc.
Qed.

End MainInput.

(** ** More about occurrences *)

Section OccurrenceFacts.

Implicit Types (s t sub pre post : string) (c : ascii) (i j k : nat).

Lemma find_nat_first sub s k : first_at sub s k → find_nat sub s = Some k.
Proof.
  intros [Hk Hmin]. destruct (find_nat sub s) as [i|] eqn:Hf.
  - apply find_nat_Some in Hf as [Hi Hmin']. f_equal.
    destruct (Nat.lt_trichotomy i k) as [Hlt|[->|Hgt]]; [|done|].
    + by apply Hmin in Hlt.
    + by apply Hmin' in Hgt.
  - apply find_nat_None in Hf. destruct Hf. apply occurs_iff. eauto.
Qed.

Lemma str_rfind_absent s sub (k : nat) :
  k ≤ String.length s → ¬ occurs sub (str_take k s) →
  str_rfind s sub 0 (Z.of_nat k) = (-1)%Z.
Proof.
  intros Hk Hno. unfold str_rfind. rewrite (norm_index_nat _ _ Hk).
  replace (norm_index _ 0) with 0%Z by (unfold norm_index; simpl; lia).
  rewrite Nat2Z.id. simpl Z.to_nat. simpl str_drop.
  replace (str_drop 0 (str_take k s)) with (str_take k s)
    by (by destruct (str_take k s)).
  destruct (rfind_nat sub (str_take k s)) as [m|] eqn:Hr; [|done].
  apply rfind_nat_Some in Hr as [Hm _]. destruct Hno. apply occurs_iff. eauto.
Qed.

End OccurrenceFacts.

(** ** More about the patcher *)

Section PatcherMore.

Context `{Platform}.
Implicit Types (w : world) (content stored : string) (paths : list string).

Lemma touches_only_manifest_printed w w1 out :
  touches_only_manifest w w1 → touches_only_manifest w (printed out w1).
Proof.
  intros (Hd & Hf & Hi & Hk & out0 & Ho). repeat split; try done.
  exists (out0 ++ out). simpl. by rewrite Ho, List.app_assoc.
Qed.

Lemma touches_only_manifest_write w data :
  touches_only_manifest w (snd (write_file json_file data w)).
Proof.
  unfold write_file, write_bytes. case_bool_decide.
  { repeat split; try done. exists []. by rewrite List.app_nil_r. }
  destruct (faults w !! json_file) as [[| |room]|]; try case_bool_decide;
    repeat split; simpl; try done;
    try (intros k Hk; by rewrite lookup_insert_ne);
    try (exists []; by rewrite List.app_nil_r).
Qed.

Lemma touches_only_manifest_trans w1 w2 w3 :
  touches_only_manifest w1 w2 → touches_only_manifest w2 w3 →
  touches_only_manifest w1 w3.
Proof.
  intros (Hd & Hf & Hi & Hk & out & Ho) (Hd' & Hf' & Hi' & Hk' & out' & Ho').
  repeat split; try congruence.
  - intros k Hne. rewrite Hk', Hk; done.
  - exists (out ++ out'). by rewrite Ho', Ho, List.app_assoc.
Qed.

Lemma touches_only_manifest_refl w : touches_only_manifest w w.
Proof. repeat split; try done. exists []. by rewrite List.app_nil_r. Qed.

Lemma update_read_failure paths w e w1 :
  read_file json_file w = (Exc e, w1) →
  update_common_flowstate_json paths w
  = if is_FileNotFoundError e
    then (Ret tt, printed ["Error: common_flowstate.json not found" +:+ nl] w1)
    else (Exc e, w1).
Proof.
  intros Hread. unfold update_common_flowstate_json.
  unfold io_bind at 1. unfold try_except at 1. unfold io_bind at 1.
  rewrite Hread. by destruct (is_FileNotFoundError e).
Qed.

(** X6. Whatever the paths and the state of the filesystem, the patcher
    leaves the directories, the input and every file other than the manifest
    as they were, only adds to the console, and does not create the manifest
    when there is none. *)
Theorem patcher_touches_only_manifest paths w :
  touches_only_manifest w (snd (update_common_flowstate_json paths w))
  ∧ (files w !! json_file = None →
     files (snd (update_common_flowstate_json paths w)) = files w).
Proof.
  destruct (read_file json_file w) as [[content|e] w1] eqn:Hread.
  - pose proof (read_file_Ret_faults _ _ _ _ Hread) as Hd.
    apply read_file_Ret in Hread as (stored & Hf & -> & ->). split; [|congruence].
    rewrite (update_after_read _ _ _ Hf Hd). cbv zeta.
    set (content := universal_newlines stored).
    generalize (List.filter (fun p => negb (present_in content p)) paths).
    generalize (List.filter (present_in content) paths).
    intros existing new. set (w1 := printed _ w).
    assert (touches_only_manifest w w1) as Hw1.
    { apply touches_only_manifest_printed, touches_only_manifest_refl. }
    destruct new as [|p new].
    { by apply touches_only_manifest_printed. }
    destruct (_ =? _)%Z; [by apply touches_only_manifest_printed|].
    destruct (_ =? _)%Z; [by apply touches_only_manifest_printed|].
    eapply touches_only_manifest_trans; [exact Hw1|].
    unfold try_except, io_bind.
    match goal with
    | |- context [write_file json_file ?d w1] =>
        pose proof (touches_only_manifest_write w1 d) as Hwr;
        destruct (write_file json_file d w1) as [[[]|e] w2]
    end; simpl in Hwr.
    + rewrite print_printed.
      destruct existing; [unfold io_ret | rewrite print_printed]; cbn [snd];
        repeat apply touches_only_manifest_printed; done.
    + by apply touches_only_manifest_printed.
  - rewrite (update_read_failure _ _ _ _ Hread).
    pose proof (read_file_world json_file w) as Hw. rewrite Hread in Hw.
    simpl in Hw. subst w1.
    destruct (is_FileNotFoundError e); (split; [|done]).
    + apply touches_only_manifest_printed, touches_only_manifest_refl.
    + apply touches_only_manifest_refl.
Qed.

(** X5. When the marker is in the manifest text, as it is read, but no open
    brace comes before its first occurrence, the patcher reports that it cannot find the start
    of the entry and returns; only the console differs. *)
Theorem marker_without_brace_no_change paths w stored k :
  files w !! json_file = Some stored →
  faults w !! json_file ≠ Some ReadDenied →
  let content := universal_newlines stored in
  (∃ p, p ∈ paths ∧ ¬ occurs (dq +:+ p +:+ dq) content) →
  first_at first_matl_pattern content k →
  ¬ occurs "{" (str_take k content) →
  update_common_flowstate_json paths w
  = (Ret tt,
     printed (map skip_line (List.filter (present_in content) paths) ++
              ["Error: Could not find the start of the first material entry" +:+ nl])
       w).
Proof.
  intros Hf Hd content (p & Hp & Hnew) Hfirst Hbrace.
  rewrite (update_after_read _ _ _ Hf Hd). cbv zeta. fold content.
  destruct (List.filter (fun q => negb _) paths) as [|q new] eqn:Hnews.
  { assert (p ∈ @nil string) as Hnil; [|by apply elem_of_nil in Hnil].
    rewrite <- Hnews. by apply elem_of_filter_absent. }
  assert (str_find content first_matl_pattern = Z.of_nat k) as ->.
  { unfold str_find. by rewrite (find_nat_first _ _ _ Hfirst). }
  destruct (Z.eqb_spec (Z.of_nat k) (-1)); [lia|].
  rewrite str_rfind_absent; [| |done].
  - simpl Z.eqb. cbv iota. by rewrite print_printed, printed_app.
  - destruct Hfirst as [(a & b & -> & <-) _]. rewrite str_app_length. lia.
Qed.

Lemma filter_partition_length {A} (f : A → bool) (l : list A) :
  length (List.filter (fun x => negb (f x)) l) + length (List.filter f l) = length l.
Proof.
  induction l as [|x l IH]; [done|]. simpl. destruct (f x); simpl; lia.
Qed.

Lemma update_success paths w stored :
  files w !! json_file = Some stored →
  faults w !! json_file = None →
  let content := universal_newlines stored in
  let new := List.filter (fun p => negb (present_in content p)) paths in
  let existing := List.filter (present_in content) paths in
  let i := str_find content first_matl_pattern in
  let j := str_rfind content "{" 0 i in
  new ≠ [] → i ≠ (-1)%Z → j ≠ (-1)%Z →
  update_common_flowstate_json paths w
  = (Ret tt,
     printed (map skip_line existing ++ report_lines new existing)
       (set_files (<[json_file := newline_out (patched content j new)]> (files w))
          w)).
Proof.
  intros Hf Hfault content new existing i j Hnew Hi Hj.
  rewrite (update_after_read paths w stored Hf) by congruence. cbv zeta.
  fold content. fold new existing i j.
  destruct new as [|p new'] eqn:Hnews; [done|].
  destruct (Z.eqb_spec i (-1)); [done|]. destruct (Z.eqb_spec j (-1)); [done|].
  unfold try_except, io_bind.
  rewrite write_file_ok; [|left; rewrite files_printed; eauto|done].
  rewrite print_printed. unfold report_lines, patched.
  destruct existing; [unfold io_ret|rewrite print_printed];
    unfold printed, set_stdout, set_files; simpl;
    by rewrite <- ?List.app_assoc, ?str_app_assoc.
Qed.

(** X7. A patch that goes through returns with the manifest rewritten and
    with a report on the console: the skipped paths, then the number of
    entries added, then, when some path was skipped, the number skipped; the
    two numbers add up to the number of candidates. What is written is the
    text that was read with the blocks put in, its line feeds as text mode
    writes them. *)
Theorem patch_is_reported paths w stored :
  files w !! json_file = Some stored →
  faults w !! json_file = None →
  let content := universal_newlines stored in
  let new := List.filter (fun p => negb (present_in content p)) paths in
  let existing := List.filter (present_in content) paths in
  let i := str_find content first_matl_pattern in
  let j := str_rfind content "{" 0 i in
  new ≠ [] → i ≠ (-1)%Z → j ≠ (-1)%Z →
  update_common_flowstate_json paths w
  = (Ret tt,
     printed (map skip_line existing ++ report_lines new existing)
       (set_files (<[json_file := newline_out (patched content j new)]> (files w))
          w))
  ∧ length new + length existing = length paths.
Proof.
  intros Hf Hfault content new existing i j Hnew Hi Hj.
  split; [by apply update_success|]. apply filter_partition_length.
Qed.

End PatcherMore.

(** ** Newlines in text mode *)

Section Newlines.

Context `{Platform}.
Implicit Types (s t : string) (c : ascii) (b : bool).

Lemma read_newlines_cons b c s :
  read_newlines b (String c s) =
  if Ascii.eqb c "013" then String "010" (read_newlines true s)
  else if Ascii.eqb c "010"
       then if b then read_newlines false s
            else String "010" (read_newlines false s)
       else String c (read_newlines false s).
Proof. reflexivity. Qed.

(** Universal newlines on a few texts, as CPython reads them. *)
Example universal_newlines_samples :
  universal_newlines ("a" +:+ cr +:+ nl +:+ "b") = "a" +:+ nl +:+ "b"
  ∧ universal_newlines ("a" +:+ cr +:+ "b") = "a" +:+ nl +:+ "b"
  ∧ universal_newlines ("a" +:+ cr +:+ cr +:+ nl +:+ "b") = "a" +:+ nl +:+ nl +:+ "b"
  ∧ universal_newlines (nl +:+ cr +:+ nl) = nl +:+ nl
  ∧ universal_newlines (cr +:+ nl +:+ nl) = nl +:+ nl
  ∧ universal_newlines ("x" +:+ nl +:+ cr +:+ "y") = "x" +:+ nl +:+ nl +:+ "y".
Proof. repeat split; reflexivity. Qed.

(** What text mode reads holds no carriage return. *)
Lemma read_newlines_no_cr b s : ¬ occurs cr (read_newlines b s).
Proof.
  unfold cr. revert b. induction s as [|c s IH]; intros b.
  - apply occurs_chr_nil.
  - rewrite read_newlines_cons.
    destruct (Ascii.eqb_spec c "013") as [->|Hcr].
    { rewrite occurs_chr_cons. intros [?|Hs]; [done|]. by apply IH in Hs. }
    destruct (Ascii.eqb_spec c "010") as [->|Hlf].
    + destruct b; [apply IH|].
      rewrite occurs_chr_cons. intros [?|Hs]; [done|]. by apply IH in Hs.
    + rewrite occurs_chr_cons. intros [?|Hs]; [done|]. by apply IH in Hs.
Qed.

Lemma universal_newlines_no_cr s : ¬ occurs cr (universal_newlines s).
Proof. apply read_newlines_no_cr. Qed.

(** A text without carriage returns is read as it is. *)
Lemma universal_newlines_plain s : ¬ occurs cr s → universal_newlines s = s.
Proof.
  unfold universal_newlines, cr. induction s as [|c s IH]; [done|].
  rewrite occurs_chr_cons, read_newlines_cons. intros Hno.
  destruct (Ascii.eqb_spec c "013") as [->|Hcr]; [tauto|].
  destruct (Ascii.eqb_spec c "010") as [->|_]; rewrite IH; tauto.
Qed.

Lemma newline_out_app s t : newline_out (s +:+ t) = newline_out s +:+ newline_out t.
Proof. apply replace_char_app. Qed.

(** With a line separator that is a line feed, or a carriage return and a
    line feed, a text without carriage returns is read back as it was
    written. *)
Lemma newline_round_trip s :
  os_linesep = nl ∨ os_linesep = cr +:+ nl →
  ¬ occurs cr s →
  universal_newlines (newline_out s) = s.
Proof.
  intros Hsep Hno. unfold newline_out. destruct Hsep as [->| ->].
  - unfold nl. rewrite replace_char_same. by apply universal_newlines_plain.
  - unfold universal_newlines, cr in *.
    assert (∀ t, read_newlines false ((chr "013" +:+ nl) +:+ t)
                 = String "010" (read_newlines false t)) as Hcrlf by done.
    induction s as [|c s IH]; [done|].
    rewrite occurs_chr_cons in Hno. rewrite replace_char_cons.
    destruct (Ascii.eqb_spec c "010") as [->|Hlf].
    + rewrite Hcrlf, IH; tauto.
    + rewrite read_newlines_cons.
      destruct (Ascii.eqb_spec c "013") as [->|Hcr]; [tauto|].
      destruct (Ascii.eqb_spec c "010") as [->|_]; [done|]. rewrite IH; tauto.
Qed.

End Newlines.

(** ** Patching twice *)

Section PatchingTwice.

Context `{Platform}.
Implicit Types (w : world) (content stored : string) (paths : list string).

Lemma patched_split content new :
  let i := str_find content first_matl_pattern in
  let j := str_rfind content "{" 0 i in
  i ≠ (-1)%Z → j ≠ (-1)%Z →
  ∃ pre post,
    content = pre +:+ String "{" post
    ∧ patched content j new = pre +:+ entries_text new +:+ String "{" post.
Proof.
  intros i j Hi Hj.
  destruct (str_find_present _ _ _ eq_refl Hi) as (k & Hk & Hfirst).
  destruct Hfirst as [(a & rest & Hcontent & Hlen) _].
  assert (k ≤ String.length content) as Hle.
  { rewrite Hcontent, str_app_length. lia. }
  assert (str_rfind content "{" 0 (Z.of_nat k) = j) as Hjk.
  { unfold j, i. by rewrite Hk. }
  destruct (rfind_brace_split _ _ _ Hle Hjk Hj) as (pre & mid & Htake & _ & Hjpre).
  assert (a = pre +:+ "{" +:+ mid) as Ha.
  { rewrite <- Htake, Hcontent, <- Hlen. by rewrite str_take_app. }
  exists pre, (mid +:+ first_matl_pattern +:+ rest).
  assert (content = pre +:+ String "{" (mid +:+ first_matl_pattern +:+ rest)) as Hsplit.
  { rewrite Hcontent, Ha, !str_app_assoc. done. }
  split; [done|].
  assert (String.length pre ≤ String.length content) as Hpre.
  { rewrite Hsplit, str_app_length. lia. }
  unfold patched, slice_to, slice_from.
  rewrite Hjpre, (norm_index_nat _ _ Hpre), Nat2Z.id.
  assert (str_take (String.length pre) content = pre) as ->.
  { rewrite Hsplit. apply str_take_app. }
  assert (str_drop (String.length pre) content
          = String "{" (mid +:+ first_matl_pattern +:+ rest)) as ->.
  { rewrite Hsplit. apply str_drop_app. }
  done.
Qed.

Lemma entry_block_occurs p : occurs (quoted p) (entry_block p).
Proof.
  exists ("    {" +:+ nl +:+ "      " +:+ dq +:+ "_type" +:+ dq +:+ ": " +:+ dq
          +:+ "matl" +:+ dq +:+ "," +:+ nl +:+ "      " +:+ dq +:+ "_path" +:+ dq
          +:+ ": "),
         (nl +:+ "    }," +:+ nl).
  unfold entry_block, quoted. by rewrite !str_app_assoc.
Qed.

Lemma entries_text_occurs p paths :
  p ∈ paths → occurs (quoted p) (entries_text paths).
Proof.
  induction paths as [|q paths IH]; [by intros ?%elem_of_nil|].
  intros [->|Hin]%elem_of_cons; simpl.
  - apply occurs_app_l, entry_block_occurs.
  - by apply occurs_app_r, IH.
Qed.

Lemma quoted_without_brace p : ¬ occurs "{" p → ¬ occurs "{" (quoted p).
Proof.
  intros Hp. unfold quoted. change "{"%string with (chr "{").
  change dq with (String "034" EmptyString).
  rewrite !occurs_chr_app, !occurs_chr_cons.
  intros [[Hq|Hn]|[Hin|[Hq|Hn]]]; try done; by apply occurs_chr_nil in Hn.
Qed.

(** The text around the path in a block holds no carriage return. *)
Lemma entry_block_no_cr p : ¬ occurs cr p → ¬ occurs cr (entry_block p).
Proof.
  intros Hp. unfold entry_block, cr in *.
  assert (∀ s, str_in (chr "013") s = false → ¬ occurs (chr "013") s) as Hlit.
  { intros s Hs Ho. apply str_in_occurs in Ho. congruence. }
  rewrite !occurs_chr_app.
  intros Ho.
  repeat (destruct Ho as [Ho|Ho]; [done || by apply Hlit in Ho|]).
  by apply Hlit in Ho.
Qed.

Lemma entries_text_no_cr paths :
  (∀ p, p ∈ paths → ¬ occurs cr p) → ¬ occurs cr (entries_text paths).
Proof.
  induction paths as [|p paths IH]; intros Hall; simpl.
  - apply occurs_chr_nil.
  - unfold cr. rewrite occurs_chr_app. intros [Ho|Ho].
    + revert Ho. apply entry_block_no_cr, Hall. left.
    + revert Ho. apply IH. intros q Hq. apply Hall. by right.
Qed.

Lemma filter_all_present content paths :
  Forall (fun p => occurs (quoted p) content) paths →
  List.filter (fun p => negb (present_in content p)) paths = []
  ∧ List.filter (present_in content) paths = paths.
Proof.
  induction 1 as [|p paths Hp _ [IH1 IH2]]; [done|].
  assert (present_in content p = true) as Hpres by (by apply str_in_occurs).
  simpl. rewrite Hpres. simpl. by rewrite IH1, IH2.
Qed.

Lemma update_all_present paths w stored :
  files w !! json_file = Some stored →
  faults w !! json_file ≠ Some ReadDenied →
  Forall (fun p => occurs (quoted p) (universal_newlines stored)) paths →
  update_common_flowstate_json paths w
  = (Ret tt, printed (map skip_line paths ++ [no_changes_line]) w).
Proof.
  intros Hf Hd [Hnew Hex]%filter_all_present.
  rewrite (update_after_read _ _ _ Hf Hd). cbv zeta. rewrite Hnew, Hex.
  by rewrite print_printed, printed_app.
Qed.

(** X8. After a patch that went through, a second call changes nothing,
    provided that the line separator of the platform is a line feed, alone
    or after a carriage return, and that no path that was added holds a
    carriage return (which would be read back as a line feed): called with
    the paths that were added it finds them all in the manifest and returns
    without writing, and so does a call with all the candidates when none of
    them holds an open brace. *)
Theorem patching_twice_changes_nothing paths w stored :
  os_linesep = nl ∨ os_linesep = cr +:+ nl →
  files w !! json_file = Some stored →
  faults w !! json_file = None →
  let content := universal_newlines stored in
  let new := List.filter (fun p => negb (present_in content p)) paths in
  let i := str_find content first_matl_pattern in
  let j := str_rfind content "{" 0 i in
  let w' := snd (update_common_flowstate_json paths w) in
  new ≠ [] → i ≠ (-1)%Z → j ≠ (-1)%Z →
  (∀ p, p ∈ new → ¬ occurs cr p) →
  update_common_flowstate_json new w'
  = (Ret tt, printed (map skip_line new ++ [no_changes_line]) w')
  ∧ ((∀ p, p ∈ paths → ¬ occurs "{" p) →
     update_common_flowstate_json paths w'
     = (Ret tt, printed (map skip_line paths ++ [no_changes_line]) w')).
Proof.
  intros Hsep Hf Hfault content new i j w' Hnew Hi Hj Hcr.
  pose proof (update_success paths w stored Hf Hfault Hnew Hi Hj) as Hrun.
  fold content in Hrun. fold new i j in Hrun.
  destruct (patched_split content new Hi Hj) as (pre & post & Hsplit & Hpatched).
  fold i j in Hpatched.
  assert (files w' !! json_file = Some (newline_out (patched content j new))) as Hf'.
  { unfold w'. rewrite Hrun. simpl. apply lookup_insert_eq. }
  assert (faults w' !! json_file ≠ Some ReadDenied) as Hd'.
  { unfold w'. rewrite Hrun. simpl. congruence. }
  assert (universal_newlines (newline_out (patched content j new))
          = patched content j new) as Hback.
  { apply newline_round_trip; [done|]. rewrite Hpatched.
    pose proof (universal_newlines_no_cr stored) as Hcontent.
    fold content in Hcontent. rewrite Hsplit in Hcontent.
    unfold cr in *. rewrite !occurs_chr_app in *.
    intros [Ho|[Ho|Ho]]; [tauto| |tauto].
    revert Ho. by apply entries_text_no_cr. }
  assert (∀ p, p ∈ new → occurs (quoted p) (patched content j new)) as Hadded.
  { intros p Hp. rewrite Hpatched. by apply occurs_app_r, occurs_app_l, entries_text_occurs. }
  split.
  - apply (update_all_present _ _ _ Hf' Hd'). rewrite Hback. by apply Forall_forall.
  - intros Hbrace. apply (update_all_present _ _ _ Hf' Hd'). rewrite Hback.
    apply Forall_forall.
    intros p Hp. destruct (present_in content p) eqn:Hpres.
    + rewrite Hpatched. apply occurs_insert.
      * rewrite <- Hsplit. by apply str_in_occurs.
      * by apply quoted_without_brace, Hbrace.
    + apply Hadded. apply list_elem_of_In, List.filter_In.
      split; [by apply list_elem_of_In|]. by rewrite Hpres.
Qed.

End PatchingTwice.

(** ** Manifest paths *)

Section ManifestPaths.

(** X13. Two names have the same manifest path only when they are the same
    name. *)
Theorem material_path_is_injective (name1 name2 : string) :
  material_path name1 = material_path name2 → name1 = name2.
Proof.
  unfold material_path. intros Heq.
  apply (inj (String.app "material/")) in Heq. by apply str_app_inv_tail in Heq.
Qed.

End ManifestPaths.

(** ** What the generation may write *)

Section Growth.

Context `{Platform}.
Implicit Types (w : world) (keys : list string) (p : string).

Lemma grows_on_refl keys w : grows_on keys w w.
Proof. by repeat split. Qed.

Lemma grows_on_trans keys w1 w2 w3 :
  grows_on keys w1 w2 → grows_on keys w2 w3 → grows_on keys w1 w3.
Proof.
  intros (Hf & Hi & Hd & Hk & Hs) (Hf' & Hi' & Hd' & Hk' & Hs').
  repeat split; try congruence.
  - set_solver.
  - intros k Hk0. rewrite Hk', Hk; done.
  - intros k Hk0. by apply Hs', Hs.
Qed.

Lemma grows_on_mono keys keys' w w' :
  keys ⊆ keys' → grows_on keys w w' → grows_on keys' w w'.
Proof.
  intros Hsub (Hf & Hi & Hd & Hk & Hs). repeat split; try done.
  intros k Hk0. apply Hk. set_solver.
Qed.

Lemma io_grows_mono {A} keys keys' (m : IO A) :
  keys ⊆ keys' → io_grows keys m → io_grows keys' m.
Proof. intros Hsub Hm w. by eapply grows_on_mono. Qed.

Lemma io_grows_ret {A} keys (a : A) : io_grows keys (io_ret a).
Proof. intros w. apply grows_on_refl. Qed.

Lemma io_grows_raise {A} keys e : io_grows keys (@raise A e).
Proof. intros w. apply grows_on_refl. Qed.

Lemma io_grows_bind {A B} keys (m : IO A) (k : A → IO B) :
  io_grows keys m → (∀ a, io_grows keys (k a)) → io_grows keys (io_bind m k).
Proof.
  intros Hm Hk w. unfold io_bind. specialize (Hm w).
  destruct (m w) as [[a|e] w1]; simpl in *; [|done].
  eapply grows_on_trans; [done|]. apply Hk.
Qed.

Lemma io_grows_try {A} keys (m : IO A) h :
  io_grows keys m → (∀ e k, h e = Some k → io_grows keys k) →
  io_grows keys (try_except m h).
Proof.
  intros Hm Hh w. unfold try_except. specialize (Hm w).
  destruct (m w) as [[a|e] w1]; simpl in *; [done|].
  destruct (h e) as [k|] eqn:He; [|done].
  eapply grows_on_trans; [done|]. by eapply Hh.
Qed.

Lemma io_grows_print keys s : io_grows keys (print s).
Proof. intros w. by repeat split. Qed.

Lemma io_grows_is_dir keys p : io_grows keys (is_dir p).
Proof. intros w. apply grows_on_refl. Qed.

Lemma io_grows_os_path_exists keys p : io_grows keys (os_path_exists p).
Proof. intros w. apply grows_on_refl. Qed.

Lemma io_grows_read_bytes keys p : io_grows keys (read_bytes p).
Proof. intros w. rewrite read_bytes_world. apply grows_on_refl. Qed.

Lemma io_grows_read_file keys p : io_grows keys (read_file p).
Proof. intros w. rewrite read_file_world. apply grows_on_refl. Qed.

Lemma io_grows_write_bytes p data : io_grows [p] (write_bytes p data).
Proof.
  intros w. unfold write_bytes. case_bool_decide; [apply grows_on_refl|].
  assert (∀ d, grows_on [p] w (set_files (<[p := d]> (files w)) w)) as Hins.
  { intros d. repeat split; simpl; try done.
    - intros k Hk. apply lookup_insert_ne. set_solver.
    - intros k Hk. destruct (decide (p = k)) as [->|Hne].
      + rewrite lookup_insert_eq. eauto.
      + by rewrite lookup_insert_ne. }
  destruct (faults w !! p) as [[| |room]|]; try case_bool_decide;
    simpl; try apply Hins. apply grows_on_refl.
Qed.

Lemma io_grows_write_file p data : io_grows [p] (write_file p data).
Proof. apply io_grows_write_bytes. Qed.

Lemma io_grows_os_mkdir keys p parent : io_grows keys (os_mkdir p parent).
Proof.
  intros w. unfold os_mkdir.
  repeat (case_match; try apply grows_on_refl).
  all: repeat split; simpl; try done; set_solver.
Qed.

Lemma io_grows_unless_is_dir keys p e : io_grows keys (unless_is_dir p e).
Proof.
  apply io_grows_bind; [apply io_grows_is_dir|].
  intros []; [apply io_grows_ret | apply io_grows_raise].
Qed.

Lemma io_grows_mkdir_exist_ok keys p parent :
  io_grows keys (mkdir_exist_ok p parent).
Proof.
  apply io_grows_try; [apply io_grows_os_mkdir|].
  intros e k. destruct (is_FileNotFoundError e); [done|].
  intros [= <-]. apply io_grows_unless_is_dir.
Qed.

Lemma io_grows_mkdir_parents keys lineage : io_grows keys (mkdir_parents lineage).
Proof.
  induction lineage as [|p ancestors IH]; [apply io_grows_ret|]. simpl.
  apply io_grows_try; [apply io_grows_os_mkdir|].
  intros e k. destruct (is_FileNotFoundError e); intros [= <-].
  - apply io_grows_bind; [done|]. intros _. apply io_grows_mkdir_exist_ok.
  - apply io_grows_unless_is_dir.
Qed.

Lemma io_grows_classify keys content paths new existing :
  io_grows keys (classify content paths new existing).
Proof.
  revert new existing. induction paths as [|p paths IH]; intros new existing; simpl.
  - apply io_grows_ret.
  - destruct (str_in _ _); [|done].
    apply io_grows_bind; [apply io_grows_print|]. done.
Qed.

Lemma io_grows_update paths :
  io_grows [json_file] (update_common_flowstate_json paths).
Proof.
  unfold update_common_flowstate_json. apply io_grows_bind.
  { apply io_grows_try.
    - apply io_grows_bind; [apply io_grows_read_file|]. intros ?. apply io_grows_ret.
    - intros e k. destruct (is_FileNotFoundError e); [|done]. intros [= <-].
      apply io_grows_bind; [apply io_grows_print|]. intros _. apply io_grows_ret. }
  intros [content|]; [|apply io_grows_ret].
  apply io_grows_bind; [apply io_grows_classify|].
  intros [[|p new] existing]; [apply io_grows_print|].
  destruct (_ =? _)%Z; [apply io_grows_print|].
  destruct (_ =? _)%Z; [apply io_grows_print|].
  apply io_grows_try.
  - apply io_grows_bind; [apply io_grows_write_file|]. intros _.
    apply io_grows_bind; [apply io_grows_print|]. intros _.
    destruct existing; [apply io_grows_ret | apply io_grows_print].
  - intros e k [= <-]. apply io_grows_print.
Qed.

End Growth.

Section GenerationGrowth.

Context `{Platform}.
Implicit Types (w : world) (name : string) (names acc : list string).

Local Ltac list_incl :=
  let k := fresh "k" in
  let Hk := fresh "Hk" in
  unfold output_keys; simpl; intros k Hk; revert Hk;
  rewrite ?elem_of_cons, ?elem_of_app, ?elem_of_nil; tauto.

Lemma io_grows_copy2 src dst :
  io_grows [dst; os_path_join dst src] (copy2 src dst).
Proof.
  unfold copy2. apply io_grows_bind; [apply io_grows_is_dir|]. intros d.
  apply io_grows_bind; [apply io_grows_read_bytes|]. intros data.
  eapply io_grows_mono; [|apply io_grows_write_bytes]. destruct d; list_incl.
Qed.

Lemma io_grows_process_material name acc :
  io_grows (output_keys name) (process_material name acc).
Proof.
  unfold process_material.
  apply io_grows_bind; [apply io_grows_print|]. intros _.
  apply io_grows_bind; [apply io_grows_mkdir_parents|]. intros _.
  apply io_grows_bind.
  { eapply io_grows_mono; [|apply io_grows_write_file]. list_incl. }
  intros _. apply io_grows_bind.
  { eapply io_grows_mono; [|apply io_grows_copy2]. list_incl. }
  intros _. apply io_grows_bind; [apply io_grows_print|]. intros _.
  apply io_grows_bind; [apply io_grows_print|]. intros _. apply io_grows_ret.
Qed.

Lemma io_grows_process_materials names acc :
  io_grows (concat (map output_keys names)) (process_materials names acc).
Proof.
  revert acc. induction names as [|name names IH]; intros acc; simpl.
  - apply io_grows_ret.
  - apply io_grows_bind.
    + eapply io_grows_mono; [|apply io_grows_process_material]. list_incl.
    + intros ps. eapply io_grows_mono; [|apply IH]. list_incl.
Qed.

Lemma generation_only_grows_aux names w :
  grows_on (json_file :: concat (map output_keys names)) w
    (snd (generate_materials names w)).
Proof.
  revert w. change (io_grows (json_file :: concat (map output_keys names))
                      (generate_materials names)).
  unfold generate_materials. destruct names as [|name names].
  { apply io_grows_print. }
  apply io_grows_bind; [apply io_grows_os_path_exists|]. intros e.
  destruct (negb e); [apply io_grows_print|].
  apply io_grows_bind.
  { eapply io_grows_mono; [|apply io_grows_process_materials]. list_incl. }
  intros ps. apply io_grows_bind; [apply io_grows_print|]. intros _.
  apply io_grows_bind.
  { eapply io_grows_mono; [|apply io_grows_update]. list_incl. }
  intros _. apply io_grows_print.
Qed.

End GenerationGrowth.

(** ** The output paths on POSIX *)

Section PosixPaths.

#[local] Existing Instance Posix.platform.

Implicit Types (s x base suffix : string) (c : ascii) (l : list string).

Lemma split_on_no_sep c s : ¬ occurs (chr c) s → split_on c s = [s].
Proof.
  induction s as [|a s IH]; [done|]. intros Hno. simpl.
  destruct (Ascii.eqb_spec a c) as [->|Hne].
  - destruct Hno. apply occurs_chr_cons. by left.
  - rewrite IH; [done|]. intros Hs. apply Hno, occurs_chr_cons. by right.
Qed.

Lemma split_on_segments c s :
  Forall (fun x => ¬ occurs (chr c) x) (split_on c s).
Proof.
  induction s as [|a s IH]; simpl.
  - constructor; [apply occurs_chr_nil|constructor].
  - destruct (Ascii.eqb_spec a c) as [->|Hne].
    + constructor; [apply occurs_chr_nil|done].
    + destruct (split_on c s) as [|h t].
      * constructor; [|constructor]. unfold chr at 2. rewrite occurs_chr_cons.
        intros [?|Hn]; [done|]. by apply occurs_chr_nil in Hn.
      * apply Forall_cons in IH as [Hh Ht]. constructor; [|done].
        rewrite occurs_chr_cons. tauto.
Qed.

Lemma base_name_no_slash name : ¬ occurs "/" (base_name name).
Proof.
  unfold base_name. pose proof (split_on_segments "/" name) as Hall.
  pose proof (split_on_nonempty "/" name) as Hne.
  destruct (exists_last Hne) as (init & x & Heq). rewrite Heq in *.
  rewrite List.last_last.
  apply Forall_app in Hall as [_ Hx]. by apply Forall_cons in Hx as [Hx _].
Qed.

Lemma prefix_slash_false x : ¬ occurs "/" x → String.prefix "/" x = false.
Proof.
  intros Hno. destruct (String.prefix "/" x) eqn:Hp; [|done].
  apply prefix_inv in Hp as [r ->]. destruct Hno. by exists EmptyString, r.
Qed.

Lemma parse_segment x :
  ¬ occurs "/" x → Posix.is_part x = true →
  Posix.parse x = {| Posix.anchor := EmptyString; Posix.parts := [x] |}.
Proof.
  intros Hno Hpart. unfold Posix.parse.
  change "/"%string with (chr "/") in Hno.
  rewrite (split_on_no_sep _ _ Hno). simpl. rewrite Hpart.
  assert (String.prefix "/" x = false) as Hp1 by (by apply prefix_slash_false).
  assert (String.prefix "//" x = false) as Hp2.
  { destruct (String.prefix "//" x) eqn:Hp; [|done].
    apply prefix_inv in Hp as [r ->]. destruct Hno. by exists EmptyString, ("/" +:+ r). }
  by rewrite Hp1, Hp2.
Qed.

Lemma file_name_is_part base suffix :
  2 ≤ String.length suffix → Posix.is_part (base +:+ suffix) = true.
Proof.
  intros Hlen. unfold Posix.is_part. apply andb_true_iff. split; apply negb_true_iff.
  - apply String.eqb_neq. intros Heq. apply (f_equal String.length) in Heq.
    rewrite str_app_length in Heq. simpl in Heq. lia.
  - apply String.eqb_neq. intros Heq. apply (f_equal String.length) in Heq.
    rewrite str_app_length in Heq. simpl in Heq. lia.
Qed.

Lemma join_snoc sep l x :
  join sep (l ++ [x]) =
  match l with
  | [] => x
  | _ :: _ => join sep l +:+ sep +:+ x
  end.
Proof.
  unfold join. induction l as [|a l IH]; [done|]. simpl.
  destruct l as [|b l]; [done|]. simpl in *. by rewrite IH, !str_app_assoc.
Qed.

Lemma div_file_name d base suffix :
  ¬ occurs "/" base → ¬ occurs "/" suffix → 2 ≤ String.length suffix →
  Posix.str (Posix.div d (base +:+ suffix))
  = Posix.anchor d +:+ join "/" (Posix.parts d ++ [base +:+ suffix]).
Proof.
  intros Hb Hs Hlen. unfold Posix.div.
  rewrite parse_segment; [|change "/"%string with (chr "/");
                           rewrite occurs_chr_app; tauto
                          |by apply file_name_is_part].
  simpl. unfold Posix.str, Posix.render. simpl.
  destruct (Posix.anchor d); [|done]. by destruct (Posix.parts d).
Qed.

Lemma output_path_ends_with d base suffix :
  ¬ occurs "/" base → ¬ occurs "/" suffix → 2 ≤ String.length suffix →
  ends_with (base +:+ suffix) (Posix.str (Posix.div d (base +:+ suffix))).
Proof.
  intros Hb Hs Hlen. rewrite div_file_name by done. rewrite join_snoc.
  destruct (Posix.parts d) as [|a l].
  - by exists (Posix.anchor d).
  - exists (Posix.anchor d +:+ join "/" (a :: l) +:+ "/"). by rewrite !str_app_assoc.
Qed.

Lemma ends_with_drop suffix s :
  ends_with suffix s →
  str_drop (String.length s - String.length suffix) s = suffix.
Proof.
  intros [pre ->]. rewrite str_app_length.
  replace (_ + _ - _) with (String.length pre) by lia. apply str_drop_app.
Qed.

Lemma ends_with_app suffix base s :
  ends_with (base +:+ suffix) s → ends_with suffix s.
Proof. intros [pre ->]. exists (pre +:+ base). by rewrite str_app_assoc. Qed.

Lemma no_slash_by_search s : str_in "/" s = false → ¬ occurs "/" s.
Proof. intros Hs Ho. apply str_in_occurs in Ho. congruence. Qed.

Lemma json_path_ends_with name :
  ends_with "_sknp.json" (path_str (json_file_path name)).
Proof.
  eapply ends_with_app. apply output_path_ends_with.
  - apply base_name_no_slash.
  - by apply no_slash_by_search.
  - simpl. lia.
Qed.

Lemma uber_path_ends_with name :
  ends_with "_sknp.uber" (path_str (uber_file_path name)).
Proof.
  eapply ends_with_app. apply output_path_ends_with.
  - apply base_name_no_slash.
  - by apply no_slash_by_search.
  - simpl. lia.
Qed.

Lemma rev_app_length s t :
  String.length (String.rev_app s t) = String.length s + String.length t.
Proof.
  revert t. induction s as [|a s IH]; intros t; simpl; [done|].
  rewrite IH. simpl. lia.
Qed.

Lemma os_path_join_ends_with dst name :
  dst ≠ EmptyString →
  ends_with name (os_path_join dst name)
  ∧ String.length name < String.length (os_path_join dst name).
Proof.
  intros Hne. unfold os_path_join.
  destruct (String.rev dst) as [|c r] eqn:Hrev.
  { apply (f_equal String.length) in Hrev. unfold String.rev in Hrev.
    rewrite rev_app_length in Hrev. destruct dst; [done|]. simpl in Hrev. lia. }
  assert (0 < String.length dst) as Hlen by (destruct dst; [done|simpl; lia]).
  destruct (Ascii.eqb c os_sep).
  - split; [by exists dst|]. rewrite str_app_length. lia.
  - split; [exists (dst +:+ chr os_sep); by rewrite str_app_assoc|].
    rewrite !str_app_length. lia.
Qed.

Lemma ends_with_nonempty suffix s :
  suffix ≠ EmptyString → ends_with suffix s → s ≠ EmptyString.
Proof.
  intros Hne [pre ->] Heq. apply (f_equal String.length) in Heq.
  rewrite str_app_length in Heq. destruct suffix; [done|]. simpl in Heq. lia.
Qed.

(** On POSIX the template and the manifest are not among the output paths
    of any name. *)
Lemma output_keys_spare name :
  (uber_template ∉ output_keys name) ∧ (json_file ∉ output_keys name).
Proof.
  pose proof (json_path_ends_with name) as Hj.
  pose proof (uber_path_ends_with name) as Hu.
  assert (path_str (uber_file_path name) ≠ EmptyString) as Hne.
  { apply (ends_with_nonempty "_sknp.uber"); [done | exact Hu]. }
  destruct (os_path_join_ends_with _ uber_template Hne) as [Hc Hlen].
  assert (∀ suffix k, ends_with suffix k →
            str_drop (String.length k - String.length suffix) k ≠ suffix →
            False) as Hclash.
  { intros suffix k Hends Hdrop. by apply Hdrop, ends_with_drop. }
  unfold output_keys. rewrite !not_elem_of_cons. repeat split.
  - intros Heq. rewrite <- Heq in Hj. apply (Hclash _ _ Hj). by vm_compute.
  - intros Heq. rewrite <- Heq in Hu. apply (Hclash _ _ Hu). by vm_compute.
  - intros Heq. rewrite <- Heq in Hlen. simpl in Hlen. lia.
  - apply not_elem_of_nil.
  - intros Heq. rewrite <- Heq in Hj. apply (Hclash _ _ Hj). by vm_compute.
  - intros Heq. rewrite <- Heq in Hu. apply (Hclash _ _ Hu). by vm_compute.
  - intros Heq. rewrite <- Heq in Hc. apply (Hclash _ _ Hc). by vm_compute.
  - apply not_elem_of_nil.
Qed.

(** X10. On POSIX no name can make the generation write over the template,
    and none can make the loop over the names write over the manifest: the
    template has the same content before and after [generate_materials], and
    the manifest the same content before and after the loop. *)
Theorem template_and_manifest_are_spared names acc w :
  files (snd (generate_materials names w)) !! uber_template
  = files w !! uber_template
  ∧ files (snd (process_materials names acc w)) !! json_file
    = files w !! json_file.
Proof.
  assert (∀ k, (∀ name, k ∉ output_keys name) →
               k ∉ concat (map output_keys names)) as Hspare.
  { intros k Hk. induction names as [|name names IH]; cbn [map concat].
    - apply not_elem_of_nil.
    - rewrite elem_of_app. intros [Hin|Hin]; [by apply (Hk name)|done]. }
  split.
  - destruct (generation_only_grows_aux names w) as (_ & _ & _ & Hk & _).
    apply Hk. rewrite not_elem_of_cons. split; [done|].
    apply Hspare. intros name. apply output_keys_spare.
  - destruct (io_grows_process_materials names acc w) as (_ & _ & _ & Hk & _).
    apply Hk, Hspare. intros name. apply output_keys_spare.
Qed.

End PosixPaths.

(** ** Where a plain name goes on POSIX *)

Section PlainNames.

#[local] Existing Instance Posix.platform.

Implicit Types (s x base suffix name : string) (c : ascii) (l init : list string).

Lemma split_on_app_segment c x rest :
  ¬ occurs (chr c) x →
  split_on c (x +:+ String c rest) = x :: split_on c rest.
Proof.
  induction x as [|a x IH]; intros Hno.
  - rewrite str_app_nil_l. simpl. by rewrite Ascii.eqb_refl.
  - rewrite str_app_cons. simpl. destruct (Ascii.eqb_spec a c) as [->|Hne].
    + destruct Hno. apply occurs_chr_cons. by left.
    + rewrite IH; [done|]. intros Hx. apply Hno, occurs_chr_cons. by right.
Qed.

Lemma join_cons sep x l :
  join sep (x :: l) =
  match l with
  | [] => x
  | _ :: _ => x +:+ sep +:+ join sep l
  end.
Proof. by destruct l. Qed.

Lemma split_join c l :
  l ≠ [] → Forall (fun x => ¬ occurs (chr c) x) l →
  split_on c (join (chr c) l) = l.
Proof.
  induction l as [|x l IH]; [done|]. intros _ [Hx Hl]%Forall_cons.
  rewrite join_cons. destruct l as [|y l].
  - by apply split_on_no_sep.
  - change (x +:+ chr c +:+ join (chr c) (y :: l))
      with (x +:+ String c (join (chr c) (y :: l))).
    rewrite split_on_app_segment by done. by rewrite IH.
Qed.







Lemma rev_app_app s t acc :
  String.rev_app (s +:+ t) acc = String.rev_app t (String.rev_app s acc).
Proof.
  revert acc. induction s as [|a s IH]; intros acc; [done|].
  rewrite str_app_cons. simpl. apply IH.
Qed.

(** Where the copy goes when the path of the copy is a directory. *)
Lemma os_path_join_uber x name :
  os_path_join (x +:+ "_sknp.uber") name = x +:+ "_sknp.uber" +:+ "/" +:+ name.
Proof.
  unfold os_path_join, String.rev. rewrite rev_app_app. simpl.
  by rewrite !str_app_assoc.
Qed.



End PlainNames.

(** ** What a generation leaves alone *)

Section DescendingNames.

#[local] Existing Instance Posix.platform.

Implicit Types (w : world) (x base suffix name k : string) (l init : list string).

Lemma join_empty sep init :
  sep ≠ EmptyString → join sep init = EmptyString → List.filter Posix.is_part init = [].
Proof.
  intros Hsep. destruct init as [|a [|b l]]; [done| |].
  - simpl. by intros ->.
  - rewrite join_cons. intros Heq. apply (f_equal String.length) in Heq.
    rewrite !str_app_length in Heq. destruct sep; [done|]. simpl in Heq. lia.
Qed.

Lemma join_no_anchor a l :
  a ≠ EmptyString → ¬ occurs "/" a → String.prefix "/" (join "/" (a :: l)) = false.
Proof.
  intros Ha Hno. destruct a as [|c a]; [done|].
  assert (c ≠ "/"%char) as Hc.
  { intros ->. apply Hno. by exists EmptyString, a. }
  assert (∃ r, join "/" (String c a :: l) = String c r) as [r ->].
  { rewrite join_cons. destruct l; rewrite ?str_app_cons; eauto. }
  destruct (String.prefix "/" (String c r)) eqn:Hp; [|done].
  apply prefix_inv in Hp as [r' Hr']. rewrite str_app_cons in Hr'. congruence.
Qed.

Lemma prefix_slash_join a l :
  l ≠ [] → a = EmptyString → String.prefix "/" (join "/" (a :: l)) = true.
Proof.
  intros Hl ->. rewrite join_cons. destruct l; [done|].
  rewrite str_app_nil_l. apply prefix_app.
Qed.

(** The directory of a descending name: the segments of the name before the
    last, without the empty ones and the dots, below assets/material. *)
Lemma material_dir_descending name :
  descending_name name = true →
  material_dir name
  = {| Posix.anchor := EmptyString;
       Posix.parts := "assets" :: "material"
                      :: List.filter Posix.is_part
                           (List.removelast (split_on "/" name)) |}.
Proof.
  intros [Hrel _]%andb_true_iff. apply negb_true_iff in Hrel.
  pose proof (split_on_segments "/" name) as Hsegs.
  pose proof (join_split "/" name) as Hjoin.
  pose proof (split_on_nonempty "/" name) as Hne.
  destruct (exists_last Hne) as (init & base & Hsplit).
  rewrite Hsplit in Hsegs, Hjoin |- *. rewrite List.removelast_last.
  apply Forall_app in Hsegs as [Hinit _].
  unfold material_dir, parent_path. rewrite Hsplit, List.removelast_last.
  destruct (str_in "/" name) eqn:Hin.
  - destruct (join "/" init) as [|c p] eqn:Hparent.
    + simpl truthy. cbv iota. by rewrite (join_empty "/" init).
    + simpl truthy. cbv iota. rewrite <- Hparent. simpl os_sep.
      rewrite replace_char_same.
      destruct init as [|a l]; [done|].
      apply Forall_cons in Hinit as [Ha Hl].
      assert (a ≠ EmptyString) as Hanon.
      { intros ->. destruct l as [|b l]; [done|].
        assert (String.prefix "/" name = true) as Hp; [|congruence].
        rewrite <- Hjoin. change (chr "/") with "/"%string.
        change (("" :: b :: l) ++ [base]) with ("" :: ((b :: l) ++ [base])).
        apply prefix_slash_join; [|done]. by destruct l. }
      assert (String.prefix "/" (join "/" (a :: l)) = false) as Hp1.
      { by apply join_no_anchor. }
      assert (String.prefix "//" (join "/" (a :: l)) = false) as Hp2.
      { destruct (String.prefix "//" (join "/" (a :: l))) eqn:Hp; [|done].
        apply prefix_inv in Hp as [r Hr].
        assert (String.prefix "/" (join "/" (a :: l)) = true) as Hp'; [|congruence].
        rewrite Hr. reflexivity. }
      unfold assets_dir.
      change (@path_div Posix.platform) with Posix.div.
      change (@Path Posix.platform) with Posix.parse.
      assert (Posix.parse (join "/" (a :: l))
              = {| Posix.anchor := EmptyString;
                   Posix.parts := List.filter Posix.is_part (a :: l) |}) as Hparse.
      { unfold Posix.parse. rewrite Hp1, Hp2. cbn [andb]. f_equal.
        change "/"%string with (chr "/"). rewrite split_join; [done|done|].
        by constructor. }
      unfold Posix.div at 1. by rewrite Hparse.
  - assert (init = []) as ->; [|done].
    assert (split_on "/" name = [name]) as Hone.
    { apply split_on_no_sep. change (chr "/") with "/"%string.
      by apply no_slash_by_search. }
    rewrite Hone in Hsplit. destruct init as [|a [|b l]]; [done| |]; simpl in Hsplit.
    + discriminate.
    + discriminate.
Qed.

Lemma proper_file_name base suffix :
  3 ≤ String.length suffix → proper_segment (base +:+ suffix) = true.
Proof.
  intros Hlen. unfold proper_segment. apply andb_true_iff. split.
  - apply file_name_is_part. lia.
  - apply negb_true_iff, String.eqb_neq. intros Heq.
    apply (f_equal String.length) in Heq. rewrite str_app_length in Heq.
    simpl in Heq. lia.
Qed.

Lemma canonical_join l :
  l ≠ [] → Forall (fun x => ¬ occurs "/" x) l → forallb proper_segment l = true →
  canonical_path (join "/" l) = true.
Proof.
  intros Hne Hno Hall. unfold canonical_path.
  change "/"%string with (chr "/") in *. by rewrite split_join.
Qed.

Lemma os_path_join_snoc l x name :
  l ≠ [] →
  os_path_join (join "/" (l ++ [x +:+ "_sknp.uber"])) name
  = join "/" ((l ++ [x +:+ "_sknp.uber"]) ++ [name]).
Proof.
  intros Hl. rewrite (join_snoc _ (l ++ _)), (join_snoc _ l).
  destruct l as [|a l]; [done|]. cbn [List.app].
  rewrite <- !str_app_assoc. by rewrite os_path_join_uber, !str_app_assoc.
Qed.

(** The output paths of a descending name are canonical. *)
Lemma output_keys_canonical name k :
  descending_name name = true → k ∈ output_keys name → canonical_path k = true.
Proof.
  intros Hdesc Hk. pose proof (material_dir_descending name Hdesc) as Hdir.
  apply andb_true_iff in Hdesc as [_ Hdots].
  pose proof (split_on_segments "/" name) as Hsegs.
  pose proof (split_on_nonempty "/" name) as Hne.
  destruct (exists_last Hne) as (init & base & Hsplit).
  assert (base_name name = base) as Hbase.
  { unfold base_name. rewrite Hsplit. apply List.last_last. }
  rewrite Hsplit in Hsegs, Hdots, Hdir. rewrite List.removelast_last in Hdir.
  rewrite forallb_app in Hdots. apply andb_true_iff in Hdots as [Hdots _].
  apply Forall_app in Hsegs as [Hinit [Hbase_no _]%Forall_cons].
  set (F := List.filter Posix.is_part init) in *.
  assert (Forall (fun x => ¬ occurs "/" x) F) as HF_no.
  { apply Forall_forall. intros x Hx. apply list_elem_of_In, List.filter_In in Hx as [Hx _].
    apply list_elem_of_In in Hx. by apply (proj1 (Forall_forall _ _) Hinit). }
  assert (forallb proper_segment F = true) as HF.
  { apply forallb_forall. intros x Hx. apply List.filter_In in Hx as [Hx Hpart].
    unfold proper_segment. rewrite Hpart. simpl.
    by apply (proj1 (forallb_forall _ _) Hdots). }
  assert (∀ suffix, ¬ occurs "/" suffix → 3 ≤ String.length suffix →
            path_str (path_div (material_dir name) (base_name name +:+ suffix))
            = join "/" (("assets" :: "material" :: F) ++ [base +:+ suffix])) as Hfile.
  { intros suffix Hs Hlen. simpl path_str. simpl path_div.
    rewrite div_file_name; [|by rewrite Hbase|done|lia].
    by rewrite Hdir, Hbase. }
  assert (∀ x, ¬ occurs "/" x → proper_segment x = true →
            canonical_path (join "/" (("assets" :: "material" :: F) ++ [x])) = true)
    as Hcanon.
  { intros x Hx Hproper. apply canonical_join.
    - done.
    - repeat constructor; try (by apply no_slash_by_search).
      apply Forall_app. split; [done|]. by constructor.
    - cbn [List.app forallb]. rewrite forallb_app, HF. simpl. by rewrite Hproper. }
  assert (∀ suffix, ¬ occurs "/" suffix → ¬ occurs "/" (base +:+ suffix)) as Hname.
  { intros suffix Hs. change "/"%string with (chr "/") in *.
    rewrite occurs_chr_app. tauto. }
  unfold output_keys in Hk. rewrite !elem_of_cons in Hk.
  destruct Hk as [->|[->|[->|Hk]]]; [| | |by apply elem_of_nil in Hk].
  - unfold json_file_path. rewrite Hfile; [|by apply no_slash_by_search|simpl; lia].
    apply Hcanon; [by apply Hname, no_slash_by_search|].
    apply proper_file_name. simpl. lia.
  - unfold uber_file_path. rewrite Hfile; [|by apply no_slash_by_search|simpl; lia].
    apply Hcanon; [by apply Hname, no_slash_by_search|].
    apply proper_file_name. simpl. lia.
  - unfold uber_file_path. rewrite Hfile; [|by apply no_slash_by_search|simpl; lia].
    rewrite os_path_join_snoc by done.
    set (L := ("assets" :: "material" :: F) ++ [base +:+ "_sknp.uber"]).
    apply canonical_join.
    + by destruct L.
    + apply Forall_app. split; [|repeat constructor; by apply no_slash_by_search].
      repeat constructor; try (by apply no_slash_by_search).
      apply Forall_app. split; [done|]. constructor; [|done].
      by apply Hname, no_slash_by_search.
    + unfold L. cbn [List.app forallb]. rewrite !forallb_app, HF. cbn [forallb].
      rewrite proper_file_name by (simpl; lia). reflexivity.
Qed.

(** X9. Generation never deletes: whatever the names and the state of the
    filesystem, and whether the run returns or raises, every directory and
    every file that was there is still there. When every name is
    descending (it does not start with a slash and has no dot-dot segment),
    its output paths are canonical paths, and every file with a canonical
    path keeps its content unless it is the manifest or an output path of
    one of the names. *)
Theorem generation_only_grows names w :
  let w' := snd (generate_materials names w) in
  faults w' = faults w ∧ stdin w' = stdin w ∧ dirs w ⊆ dirs w'
  ∧ (∀ k, is_Some (files w !! k) → is_Some (files w' !! k))
  ∧ (forallb descending_name names = true →
     (∀ name k, name ∈ names → k ∈ output_keys name → canonical_path k = true)
     ∧ (∀ k, canonical_path k = true → k ≠ json_file →
          (∀ name, name ∈ names → k ∉ output_keys name) →
          files w' !! k = files w !! k)).
Proof.
  intros w'. destruct (generation_only_grows_aux names w) as (Hf & Hi & Hd & Hk & Hs).
  fold w' in Hf, Hi, Hd, Hk, Hs.
  split; [done|]. split; [done|]. split; [done|]. split; [done|].
  intros Hnames. split.
  - intros name k Hname. apply output_keys_canonical.
    apply (proj1 (forallb_forall _ _) Hnames). by apply list_elem_of_In.
  - intros k _ Hmanifest Hout. apply Hk. rewrite not_elem_of_cons. split; [done|].
    clear -Hout. induction names as [|name names IH]; cbn [map concat].
    + apply not_elem_of_nil.
    + rewrite elem_of_app. intros [Hin|Hin].
      * by apply (Hout name); [left|].
      * revert Hin. apply IH. intros n Hn. apply Hout. by right.
Qed.

End DescendingNames.

(** ** Ensuring a directory twice *)

Section MkdirTwice.

Implicit Types (w : world) (p q : string) (keys lineage : list string).













End MkdirTwice.

(** ** Processing a name twice on POSIX *)

Section ProcessingTwice.

#[local] Existing Instance Posix.platform.

Implicit Types (w : world) (p q name : string) (acc : list string).










End ProcessingTwice.

(** ** The further properties at work on the sample worlds *)

Section MoreWitnesses.

#[local] Existing Instance Posix.platform.

Lemma collected_names_witness :
  collect_names (sample_world [" foo/bar "; "baz"; "  "; "y"])
  = (Ret ["foo/bar"; "baz"],
     set_stdin ["y"] (sample_world [" foo/bar "; "baz"; "  "; "y"])).
Proof.
  apply collected_names_are_the_stripped_lines.
  exists [" foo/bar "; "baz"], "  ", ["y"].
  split; [reflexivity|]. split; [|split; [reflexivity|split; reflexivity]].
  repeat constructor; vm_compute; discriminate.
Defined.

Lemma collected_names_trimmed_witness :
  Forall (fun name => name ≠ EmptyString ∧ trimmed name) ["foo/bar"; "baz"].
Proof.
  apply (collected_names_are_trimmed
           (sample_world [" foo/bar "; "baz"; "  "; "y"]) ["foo/bar"; "baz"]
           (set_stdin ["y"] (sample_world [" foo/bar "; "baz"; "  "; "y"]))).
  vm_compute. reflexivity.
Defined.

Lemma blank_first_line_witness :
  main (sample_world [" "; "a"])
  = (Ret tt,
     set_stdin ["a"]
       (printed (banner ++ ["No material names provided. Exiting." +:+ nl])
          (sample_world [" "; "a"]))).
Proof.
  apply (blank_first_line_ends_main (sample_world [" "; "a"]) " " ["a"]);
    reflexivity.
Defined.

Lemma end_of_input_witness :
  main (sample_world ["a"; "b"])
  = (Exc EOFError, set_stdin [] (printed banner (sample_world ["a"; "b"])))
  ∧ main (sample_world ["a"; EmptyString])
    = (Exc EOFError, asked ["a"] [] (sample_world ["a"; EmptyString])).
Proof.
  split.
  - apply (end_of_input_raises (sample_world ["a"; "b"]) []).
    repeat constructor; vm_compute; discriminate.
  - apply (end_of_input_raises (sample_world ["a"; EmptyString]) ["a"]);
      [reflexivity | discriminate].
Defined.

Lemma marker_without_brace_witness :
  update_common_flowstate_json two_paths braceless_world
  = (Ret tt,
     printed ["Error: Could not find the start of the first material entry" +:+ nl]
       braceless_world).
Proof.
  apply (marker_without_brace_no_change two_paths braceless_world
           first_matl_pattern 0).
  - reflexivity.
  - vm_compute. discriminate.
  - exists "material/baz_sknp.rpak". split.
    + apply list_elem_of_In. simpl. tauto.
    + apply find_nat_None. reflexivity.
  - apply find_nat_Some. reflexivity.
  - apply rfind_nat_None. reflexivity.
Defined.

Lemma patcher_frame_witness :
  files (snd (update_common_flowstate_json two_paths empty_world))
  = files empty_world.
Proof.
  apply (patcher_touches_only_manifest two_paths empty_world). reflexivity.
Defined.

Lemma patch_report_witness :
  stdout (snd (update_common_flowstate_json
                 ("material/old_sknp.rpak" :: two_paths) (sample_world [])))
  = [skip_line "material/old_sknp.rpak";
     "Added 2 new material entries to common_flowstate.json" +:+ nl;
     "Skipped 1 existing entries" +:+ nl].
Proof.
  pose proof (patch_is_reported ("material/old_sknp.rpak" :: two_paths)
                (sample_world []) sample_manifest eq_refl eq_refl) as Hrun.
  cbv zeta in Hrun. destruct Hrun as [-> _].
  - vm_compute. discriminate.
  - vm_compute. discriminate.
  - vm_compute. discriminate.
  - vm_compute. reflexivity.
Defined.

Lemma patching_twice_witness :
  let w' := snd (update_common_flowstate_json two_paths (sample_world [])) in
  update_common_flowstate_json two_paths w'
  = (Ret tt, printed (map skip_line two_paths ++ [no_changes_line]) w').
Proof.
  pose proof (patching_twice_changes_nothing two_paths (sample_world [])
                sample_manifest (or_introl eq_refl) eq_refl eq_refl) as Hrun.
  cbv zeta in Hrun. destruct Hrun as [_ Hall].
  - vm_compute. discriminate.
  - vm_compute. discriminate.
  - vm_compute. discriminate.
  - intros p Hp. apply find_nat_None.
    apply list_elem_of_In in Hp. vm_compute in Hp.
    destruct Hp as [<-|[<-|[]]]; reflexivity.
  - cbv zeta. apply Hall. intros p Hp. apply find_nat_None.
    apply list_elem_of_In in Hp. simpl in Hp.
    destruct Hp as [<-|[<-|[]]]; reflexivity.
Defined.



Lemma generation_grows_witness :
  let w := sample_world [] in
  let w' := snd (generate_materials ["foo/bar"; "baz"] w) in
  canonical_path "assets/material/foo/bar_sknp.json" = true
  ∧ files w' !! "testuber.uber" = files w !! "testuber.uber".
Proof.
  cbv zeta.
  destruct (generation_only_grows ["foo/bar"; "baz"] (sample_world []))
    as (_ & _ & _ & _ & Hdesc).
  destruct Hdesc as [Hcanon Hkeep]; [reflexivity|].
  split.
  - apply (Hcanon "foo/bar"); [left|]. apply list_elem_of_In. left. reflexivity.
  - apply Hkeep; [reflexivity | discriminate |].
    intros name Hname Hk. apply list_elem_of_In in Hname, Hk.
    destruct Hname as [<-|[<-|[]]]; vm_compute in Hk;
      destruct Hk as [Hk|[Hk|[Hk|[]]]]; discriminate.
Defined.

Lemma material_path_witness : "foo/bar" = "foo/bar".
Proof. apply material_path_is_injective. reflexivity. Defined.

End MoreWitnesses.
